(** * LLM management API: a shallow embedding of [llm-management-api.py]

    The Flask application keeps a process-wide dictionary
    [service_processes] and drives two external services (NLLB on port
    8000, Ollama on port 8001) through shell scripts, a port scan and an
    HTTP health probe.  The handlers are embedded as programs over an
    effect signature; an interpreter runs them against a registry, an
    abstract outside world and a chronological trace of the effects that
    were performed. *)

From stdpp Require Import gmap strings list fin_maps.
From Stdlib Require Import ZArith Lia.

Local Open Scope string_scope.
Local Open Scope list_scope.

(** ** Data model *)

(** The two values the ['status'] field ever holds: ['stopped'] and
    ['running']. *)
Inductive Status : Type :=
| stopped
| running.

Definition status_str (st : Status) : string :=
  match st with
  | stopped => "stopped"
  | running => "running"
  end.

Global Instance Status_eq_dec : EqDecision Status.
Proof. solve_decision. Defined.

(** One inner dictionary [{'pid': .., 'status': .., 'start_time': ..}]. *)
Record Entry : Type := mkEntry {
  pid : option Z;
  status : Status;
  start_time : option Z
}.

Global Instance Entry_eq_dec : EqDecision Entry.
Proof. solve_decision. Defined.

(** [service_processes] as created at import time. *)
Definition service_processes : gmap string Entry :=
  <["nllb" := mkEntry None stopped None]>
    (<["ollama" := mkEntry None stopped None]> ∅).

Definition PROJECT_DIR : string := "/home/jamil/projects/GlobalNews-Letter".

(** One connection as psutil shows it: a local address with its port
    and a status, or a connection whose [laddr] is the empty tuple, on
    which [conn.laddr.port] raises [AttributeError]. *)
Inductive Conn : Type :=
| mkConn (port : Z) (status : string)
| mkConnNoAddr (status : string).

(** [conn.laddr.port], [None] where the attribute access raises. *)
Definition laddr_port (c : Conn) : option Z :=
  match c with
  | mkConn port _ => Some port
  | mkConnNoAddr _ => None
  end.

Definition conn_status (c : Conn) : string :=
  match c with
  | mkConn _ status => status
  | mkConnNoAddr status => status
  end.

(** What [psutil.process_iter(['pid', 'name', 'connections'])] shows of
    one process: its pid and its connections ([None] when psutil could
    not read them, which the code turns into [[]] with [or []]). *)

Record ProcInfo : Type := mkProc {
  proc_pid : Z;
  proc_connections : option (list Conn)
}.

(** A whole enumeration: the processes yielded, and whether the
    generator raised once they were exhausted. *)
Record ProcScan : Type := mkScan {
  procs : list ProcInfo;
  scan_raised : bool
}.

(** [requests.get(url, timeout=5)]: a response with a status code, or
    any exception. *)
Inductive HttpOutcome : Type :=
| HttpResponse (status_code : Z)
| HttpRaised.

(** [subprocess.run(['bash', path], capture_output=True, text=True,
    cwd=PROJECT_DIR, timeout=30)]: a completed process, the
    [TimeoutExpired] exception, or another exception [e] with [str(e)]. *)
Inductive ProcOutcome : Type :=
| Completed (stdout stderr : string) (returncode : Z)
| TimeoutExpired
| ProcRaised (msg : string).

(** JSON values, enough for the bodies the handlers build. *)
#[warnings="-register-all"]
Inductive JVal : Type :=
| JNull
| JBool (b : bool)
| JInt (n : Z)
| JStr (s : string)
| JObj (fields : list (string * JVal)).

(** A [flask.Response] made by [jsonify]. *)
Record Response : Type := jsonify { get_json : list (string * JVal) }.

(** What a view function returns: a bare [Response], or the tuple
    [(Response, code)]. *)
Inductive ViewResult : Type :=
| Bare (r : Response)
| WithCode (r : Response) (code : Z).

(** The exceptions no handler catches. *)
Inductive Exn : Type :=
| KeyError (key : string)
| TypeError (msg : string).

(** ** Effects *)

Inductive Eff : Type -> Type :=
| ProcessIter : Eff ProcScan
| HttpGet (url : string) : Eff HttpOutcome
| SubprocessRun (script_path : string) : Eff ProcOutcome
| Sleep (secs : Z) : Eff unit
| Lookup (service : string) : Eff Entry
| SetPid (service : string) (v : option Z) : Eff unit
| SetStatus (service : string) (v : Status) : Eff unit
| Snapshot : Eff (gmap string Entry).

(** Programs: finite trees of effects, ending in a value or an uncaught
    exception. *)
Inductive Prog (A : Type) : Type :=
| Ret (a : A)
| Throw (e : Exn)
| Vis {X : Type} (e : Eff X) (k : X -> Prog A).

Arguments Ret {A} a.
Arguments Throw {A} e.
Arguments Vis {A X} e k.

Fixpoint bind {A B : Type} (m : Prog A) (f : A -> Prog B) : Prog B :=
  match m with
  | Ret a => f a
  | Throw e => Throw e
  | Vis e k => Vis e (fun x => bind (k x) f)
  end.

Definition perform {X : Type} (e : Eff X) : Prog X := Vis e Ret.

Declare Scope prog_scope.
Delimit Scope prog_scope with prog.
Notation "x <- m ;; k" := (bind m (fun x => k))
  (at level 100, m at next level, right associativity) : prog_scope.
Notation "m ;;; k" := (bind m (fun _ => k))
  (at level 100, right associativity) : prog_scope.
Local Open Scope prog_scope.

(** ** The leaves *)

(** [run_script]: both [except] clauses return return code 1. *)
Definition script_result (o : ProcOutcome) : string * string * Z :=
  match o with
  | Completed out err rc => (out, err, rc)
  | TimeoutExpired => ("", "Script timed out", 1%Z)
  | ProcRaised msg => ("", msg, 1%Z)
  end.

Definition run_script (script_path : string) : Prog (string * string * Z) :=
  o <- perform (SubprocessRun script_path) ;;
  Ret (script_result o).

Definition health_url (service : string) : option string :=
  if decide (service = "nllb") then Some "http://localhost:8000/health"
  else if decide (service = "ollama") then Some "http://localhost:8001/health"
  else None.

Definition probe_ok (o : HttpOutcome) : bool :=
  match o with
  | HttpResponse code => bool_decide (code = 200%Z)
  | HttpRaised => false
  end.

Definition check_service_health (service : string) : Prog bool :=
  match health_url service with
  | None => Ret false
  | Some url => o <- perform (HttpGet url) ;; Ret (probe_ok o)
  end.

(** The test [conn.laddr.port == port and conn.status == 'LISTEN'] on
    one connection; [None] when [conn.laddr.port] raises. *)
Definition conn_listens (port : Z) (c : Conn) : option bool :=
  match laddr_port c with
  | Some p => Some (bool_decide (p = port) && bool_decide (conn_status c = "LISTEN"))
  | None => None
  end.

(** The inner loop over the connections of one process: a match, no
    match, or [None] when the test raised before any match. *)
Fixpoint any_listens (port : Z) (conns : list Conn) : option bool :=
  match conns with
  | [] => Some false
  | c :: conns' =>
      match conn_listens port c with
      | Some true => Some true
      | Some false => any_listens port conns'
      | None => None
      end
  end.

(** The outer loop.  The [AttributeError] of the test is not one of the
    exceptions the inner [try] catches: it reaches the bare [except] and
    the scan is given up with [None], whatever the processes not yet
    looked at listen on. *)
Fixpoint first_listener (port : Z) (ps : list ProcInfo) : option Z :=
  match ps with
  | [] => None
  | p :: ps' =>
      match any_listens port (default [] (proc_connections p)) with
      | Some true => Some (proc_pid p)
      | Some false => first_listener port ps'
      | None => None
      end
  end.

(** A match found while iterating is returned; an exception, of the
    enumeration or of the test, ends in [return None] like an exhausted
    iteration does. *)
Definition get_process_by_port (port : Z) : Prog (option Z) :=
  sc <- perform ProcessIter ;;
  Ret (first_listener port (procs sc)).

(** Python truth value of [pid]: [None] and [0] are false. *)
Definition pid_truthy (p : option Z) : bool :=
  match p with
  | Some n => negb (bool_decide (n = 0%Z))
  | None => false
  end.

Definition port_of (service : string) : Z :=
  if decide (service = "nllb") then 8000%Z else 8001%Z.

Definition reconcile (service : string) : Prog unit :=
  p <- get_process_by_port (port_of service) ;;
  ok <- (if pid_truthy p then check_service_health service else Ret false) ;;
  if ok then
    (perform (SetPid service p) ;;;
     perform (SetStatus service running))
  else
    (perform (SetPid service None) ;;;
     perform (SetStatus service stopped)).

Fixpoint for_each {A : Type} (l : list A) (body : A -> Prog unit) : Prog unit :=
  match l with
  | [] => Ret tt
  | x :: l' => body x ;;; for_each l' body
  end.

Definition update_service_status : Prog unit :=
  for_each ["nllb"; "ollama"] reconcile.

(** ** The handlers *)

Definition known (service : string) : bool :=
  bool_decide (service = "nllb") || bool_decide (service = "ollama").

Definition invalid_service : ViewResult :=
  WithCode (jsonify [("error", JStr "Invalid service")]) 400%Z.

Definition already_running (service : string) : ViewResult :=
  Bare (jsonify [("success", JBool true);
                 ("message", JStr (service +:+ " service is already running"));
                 ("status", JStr "running")]).

Definition start_failed (service stdout stderr : string) : ViewResult :=
  WithCode (jsonify [("success", JBool false);
                     ("error", JStr ("Failed to start " +:+ service +:+ ": " +:+ stderr));
                     ("stdout", JStr stdout)]) 500%Z.

Definition started (service stdout : string) : ViewResult :=
  Bare (jsonify [("success", JBool true);
                 ("message", JStr (service +:+ " service started successfully"));
                 ("status", JStr "running");
                 ("stdout", JStr stdout)]).

Definition start_timed_out (service stdout : string) : ViewResult :=
  WithCode (jsonify [("success", JBool false);
                     ("error", JStr (service +:+ " service failed to start within timeout"));
                     ("stdout", JStr stdout)]) 500%Z.

Definition stop_failed (service stdout stderr : string) : ViewResult :=
  WithCode (jsonify [("success", JBool false);
                     ("error", JStr ("Failed to stop " +:+ service +:+ ": " +:+ stderr));
                     ("stdout", JStr stdout)]) 500%Z.

Definition stop_done (service : string) (st : Status) (stdout : string) : ViewResult :=
  Bare (jsonify [("success", JBool true);
                 ("message", JStr (service +:+ " service stopped successfully"));
                 ("status", JStr (status_str st));
                 ("stdout", JStr stdout)]).

(** The body of [for _ in range(15)], followed by the statement after
    the loop once the attempts are used up. *)
Fixpoint wait_until_ready (attempts : nat) (service stdout : string) : Prog ViewResult :=
  match attempts with
  | O => Ret (start_timed_out service stdout)
  | S n =>
      perform (Sleep 2%Z) ;;;
      ok <- check_service_health service ;;
      if ok then (update_service_status ;;; Ret (started service stdout))
      else wait_until_ready n service stdout
  end.

Definition start_script (service : string) : string :=
  PROJECT_DIR +:+ "/llm-control/start-" +:+ service +:+ ".sh".

Definition stop_script (service : string) : string :=
  PROJECT_DIR +:+ "/llm-control/stop-" +:+ service +:+ ".sh".

Definition start_service (service : string) : Prog ViewResult :=
  if negb (known service) then Ret invalid_service
  else
    up <- check_service_health service ;;
    if up then Ret (already_running service)
    else
      res <- run_script (start_script service) ;;
      let '(stdout, stderr, returncode) := res in
      if negb (bool_decide (returncode = 0%Z))
      then Ret (start_failed service stdout stderr)
      else wait_until_ready 15 service stdout.

Definition stop_service (service : string) : Prog ViewResult :=
  if negb (known service) then Ret invalid_service
  else
    res <- run_script (stop_script service) ;;
    let '(stdout, stderr, returncode) := res in
    if negb (bool_decide (returncode = 0%Z))
    then Ret (stop_failed service stdout stderr)
    else
      perform (Sleep 2%Z) ;;;
      update_service_status ;;;
      e <- perform (Lookup service) ;;
      Ret (stop_done service (status e) stdout).

(** [stop_result[0]]: a tuple has a first component; a [Response] has
    no [__getitem__]. *)
Definition subscript0 (v : ViewResult) : Prog Response :=
  match v with
  | WithCode r _ => Ret r
  | Bare _ => Throw (TypeError "'Response' object is not subscriptable")
  end.

Fixpoint dict_get (key : string) (default : JVal) (d : list (string * JVal)) : JVal :=
  match d with
  | [] => default
  | (k, v) :: d' => if decide (k = key) then v else dict_get key default d'
  end.

(** Python truth value of a JSON value. *)
Definition truthy (v : JVal) : bool :=
  match v with
  | JNull => false
  | JBool b => b
  | JInt n => negb (bool_decide (n = 0%Z))
  | JStr s => negb (bool_decide (s = ""))
  | JObj fields => negb (bool_decide (fields = []))
  end.

Definition restart_service (service : string) : Prog ViewResult :=
  if negb (known service) then Ret invalid_service
  else
    stop_result <- stop_service service ;;
    r0 <- subscript0 stop_result ;;
    if negb (truthy (dict_get "success" (JBool false) (get_json r0)))
    then Ret stop_result
    else
      perform (Sleep 2%Z) ;;;
      start_service service.

Definition opt_int (o : option Z) : JVal :=
  match o with
  | Some n => JInt n
  | None => JNull
  end.

Definition entry_json (e : Entry) : JVal :=
  JObj [("pid", opt_int (pid e));
        ("status", JStr (status_str (status e)));
        ("start_time", opt_int (start_time e))].

Definition registry_json (reg : gmap string Entry) : JVal :=
  JObj (map (fun kv => (fst kv, entry_json (snd kv))) (map_to_list reg)).

Definition health : Prog ViewResult :=
  reg <- perform Snapshot ;;
  Ret (Bare (jsonify [("status", JStr "healthy"); ("services", registry_json reg)])).

Definition get_services_status : Prog ViewResult :=
  update_service_status ;;;
  n1 <- perform (Lookup "nllb") ;;
  n2 <- perform (Lookup "nllb") ;;
  nh <- check_service_health "nllb" ;;
  o1 <- perform (Lookup "ollama") ;;
  o2 <- perform (Lookup "ollama") ;;
  oh <- check_service_health "ollama" ;;
  Ret (Bare (jsonify
    [("nllb", JObj [("status", JStr (status_str (status n1)));
                    ("pid", opt_int (pid n2));
                    ("healthy", JBool nh);
                    ("port", JInt 8000%Z);
                    ("endpoint", JStr "http://localhost:8000")]);
     ("ollama", JObj [("status", JStr (status_str (status o1)));
                      ("pid", opt_int (pid o2));
                      ("healthy", JBool oh);
                      ("port", JInt 8001%Z);
                      ("endpoint", JStr "http://localhost:8001")])])).

(** The routes of the application. *)
Inductive Request : Type :=
| GET_health
| GET_services_status
| POST_start (service : string)
| POST_stop (service : string)
| POST_restart (service : string).

Definition dispatch (rq : Request) : Prog ViewResult :=
  match rq with
  | GET_health => health
  | GET_services_status => get_services_status
  | POST_start service => start_service service
  | POST_stop service => stop_service service
  | POST_restart service => restart_service service
  end.

(** The status code Flask sends: 200 for a bare response, the second
    component of a tuple, 500 for an exception the view did not catch. *)
Definition http_status (r : Exn + ViewResult) : Z :=
  match r with
  | inr (Bare _) => 200%Z
  | inr (WithCode _ code) => code
  | inl _ => 500%Z
  end.

Definition body_of (v : ViewResult) : list (string * JVal) :=
  match v with
  | Bare r => get_json r
  | WithCode r _ => get_json r
  end.

(** The ['success'] field of a response body, [False] when absent. *)
Definition succeeded (v : ViewResult) : bool :=
  truthy (dict_get "success" (JBool false) (body_of v)).

(** ** Running programs *)

(** The effects that reach outside the process, with their answers. *)
Inductive Event : Type :=
| EvScan (sc : ProcScan)
| EvHttp (url : string) (o : HttpOutcome)
| EvScript (script_path : string) (o : ProcOutcome)
| EvSleep (secs : Z).

(** The outside world: every interaction returns an answer and the
    world after it. *)
Class World (W : Type) : Type := {
  process_iter : W -> ProcScan * W;
  requests_get : string -> W -> HttpOutcome * W;
  subprocess_run : string -> W -> ProcOutcome * W;
  time_sleep : Z -> W -> W
}.

Record Sys (W : Type) : Type := mkSys {
  registry : gmap string Entry;
  world : W;
  trace : list Event
}.

Arguments mkSys {W} registry world trace.
Arguments registry {W} s.
Arguments world {W} s.
Arguments trace {W} s.

Definition set_pid (v : option Z) (e : Entry) : Entry :=
  mkEntry v (status e) (start_time e).

Definition set_status (v : Status) (e : Entry) : Entry :=
  mkEntry (pid e) v (start_time e).

Section Run.
Context {W : Type} `{World W}.

(** [service_processes[service][field] = v]: the outer subscript
    raises [KeyError] on a missing name. *)
Definition assign (service : string) (f : Entry -> Entry) (s : Sys W)
  : (Exn + unit) * Sys W :=
  match registry s !! service with
  | Some e => (inr tt, mkSys (<[service := f e]> (registry s)) (world s) (trace s))
  | None => (inl (KeyError service), s)
  end.

Definition react {X : Type} (e : Eff X) (s : Sys W) : (Exn + X) * Sys W :=
  match e in Eff X return (Exn + X) * Sys W with
  | ProcessIter =>
      let '(sc, w) := process_iter (world s) in
      (inr sc, mkSys (registry s) w (trace s ++ [EvScan sc]))
  | HttpGet url =>
      let '(o, w) := requests_get url (world s) in
      (inr o, mkSys (registry s) w (trace s ++ [EvHttp url o]))
  | SubprocessRun path =>
      let '(o, w) := subprocess_run path (world s) in
      (inr o, mkSys (registry s) w (trace s ++ [EvScript path o]))
  | Sleep secs =>
      (inr tt, mkSys (registry s) (time_sleep secs (world s)) (trace s ++ [EvSleep secs]))
  | Lookup service =>
      match registry s !! service with
      | Some e => (inr e, s)
      | None => (inl (KeyError service), s)
      end
  | SetPid service v => assign service (set_pid v) s
  | SetStatus service v => assign service (set_status v) s
  | Snapshot => (inr (registry s), s)
  end.

Fixpoint run {A : Type} (p : Prog A) (s : Sys W) : (Exn + A) * Sys W :=
  match p with
  | Ret a => (inr a, s)
  | Throw e => (inl e, s)
  | Vis e k =>
      match react e s with
      | (inr x, s') => run (k x) s'
      | (inl ex, s') => (inl ex, s')
      end
  end.

(** Requests served one after the other; an uncaught exception ends
    only its own request. *)
Definition serve (rqs : list Request) (s : Sys W) : Sys W :=
  fold_left (fun s rq => snd (run (dispatch rq) s)) rqs s.

(** The main block: [update_service_status()] once, before the server
    starts. *)
Definition boot (w : W) : Sys W :=
  snd (run update_service_status (mkSys service_processes w [])).

(** Concurrent requests.  [app.run] starts Werkzeug's threaded server:
    every request runs its view in a thread of its own, over the one
    [service_processes] and the one outside world.  The views take no
    lock, so between any two effects of one request the effects of
    another may be performed.  [step] is one effect of one thread. *)
Definition step {A : Type} (p : Prog A) (s : Sys W) : Prog A * Sys W :=
  match p with
  | Vis e k =>
      match react e s with
      | (inr x, s') => (k x, s')
      | (inl ex, s') => (Throw ex, s')
      end
  | _ => (p, s)
  end.

Fixpoint steps {A : Type} (n : nat) (p : Prog A) (s : Sys W) : Prog A * Sys W :=
  match n with
  | O => (p, s)
  | S n' => let '(p', s') := step p s in steps n' p' s'
  end.

(** The requests in flight, advanced in the order of a schedule: each
    entry names the thread that performs its next effect. *)
Fixpoint interleave {A : Type} (sch : list nat) (pool : list (Prog A)) (s : Sys W)
  : list (Prog A) * Sys W :=
  match sch with
  | [] => (pool, s)
  | i :: sch' =>
      match pool !! i with
      | Some p => let '(p', s') := step p s in interleave sch' (<[i := p']> pool) s'
      | None => interleave sch' pool s
      end
  end.

End Run.

(** ** A scripted world

    The answers the outside world will give, in order, one queue per
    kind of interaction; an exhausted queue answers with an empty scan,
    a refused connection, a script that could not be launched. *)
Record Oracle : Type := mkOracle {
  scans : list ProcScan;
  replies : list HttpOutcome;
  exits : list ProcOutcome
}.

Global Instance Oracle_World : World Oracle := {|
  process_iter o :=
    match scans o with
    | [] => (mkScan [] false, o)
    | sc :: rest => (sc, mkOracle rest (replies o) (exits o))
    end;
  requests_get _ o :=
    match replies o with
    | [] => (HttpRaised, o)
    | r :: rest => (r, mkOracle (scans o) rest (exits o))
    end;
  subprocess_run _ o :=
    match exits o with
    | [] => (ProcRaised "", o)
    | r :: rest => (r, mkOracle (scans o) (replies o) rest)
    end;
  time_sleep _ o := o
|}.

Definition fresh (o : Oracle) : Sys Oracle := mkSys service_processes o [].

(** *** Scenarios *)

(** A scan that shows process 4242 listening on port 8000. *)
Definition nllb_listening : ProcScan :=
  mkScan [mkProc 4242%Z (Some [mkConn 8000%Z "LISTEN"])] false.

(** The stop script exits with 0, yet the service keeps its port and
    keeps answering its health check. *)
Definition stop_ignored : Oracle :=
  mkOracle [nllb_listening; mkScan [] false] [HttpResponse 200] [Completed "" "" 0%Z].

(** NLLB is up: its port is bound and its health check answers 200,
    for reconciliation and again for the ['healthy'] field. *)
Definition nllb_up : Oracle :=
  mkOracle [nllb_listening; mkScan [] false] [HttpResponse 200; HttpResponse 200] [].

(** NLLB is down, its start script exits with 0, and the third poll is
    the first that finds the health check answering. *)
Definition third_probe : Oracle :=
  mkOracle [nllb_listening; mkScan [] false]
    [HttpRaised; HttpRaised; HttpResponse 503; HttpResponse 200; HttpResponse 200]
    [Completed "started" "" 0%Z].

(** Both scripts exit with 0 and the service behaves: gone after the
    stop, healthy on the first poll after the start. *)
Definition clean_restart : Oracle :=
  mkOracle [mkScan [] false; mkScan [] false; nllb_listening; mkScan [] false]
    [HttpRaised; HttpResponse 200; HttpResponse 200]
    [Completed "stopped" "" 0%Z; Completed "started" "" 0%Z].

(** NLLB is down and two Start requests arrive together: the health
    check refuses both first probes, each start script exits with 0, and
    the health check answers from then on. *)
Definition both_probe_first : Oracle :=
  mkOracle (repeat nllb_listening 4)
    [HttpRaised; HttpRaised; HttpResponse 200; HttpResponse 200;
     HttpResponse 200; HttpResponse 200]
    [Completed "first" "" 0%Z; Completed "second" "" 0%Z].

(** Two reconciliations overlap; the first finds NLLB up, the second
    finds its port free. *)
Definition up_then_down : Oracle :=
  mkOracle [nllb_listening; mkScan [] false] [HttpResponse 200] [].

(** ** Observations on traces and registries *)

Definition is_script (ev : Event) : bool :=
  match ev with
  | EvScript _ _ => true
  | _ => false
  end.

(** How many times [subprocess.run] was reached. *)
Fixpoint scripts_run (t : list Event) : nat :=
  match t with
  | [] => 0
  | ev :: t' => (if is_script ev then 1 else 0) + scripts_run t'
  end.

(** [idle_polls url n t]: [t] is [n] rounds of the polling loop, each a
    two-second sleep followed by a probe of [url] that was not a 200. *)
Fixpoint idle_polls (url : string) (n : nat) (t : list Event) : bool :=
  match n, t with
  | O, [] => true
  | S n', EvSleep secs :: EvHttp u o :: t' =>
      bool_decide (secs = 2%Z) && bool_decide (u = url) && negb (probe_ok o)
      && idle_polls url n' t'
  | _, _ => false
  end.

(** Both names are keys of the registry. *)
Definition reg_wf (reg : gmap string Entry) : Prop :=
  is_Some (reg !! "nllb") /\ is_Some (reg !! "ollama").

(** The stored pid is not [None] exactly when the status is
    ['running']. *)
Definition entry_consistent (e : Entry) : Prop :=
  pid e <> None <-> status e = running.

Definition consistent (reg : gmap string Entry) : Prop :=
  forall service e, reg !! service = Some e -> entry_consistent e.

(** What [update_service_status] stores for one service once it has
    found [p] on the port and [ok] says whether the branch taken was the
    running one. *)
Definition reconciled (p : option Z) (ok : bool) (e : Entry) : Entry :=
  if ok then mkEntry p running (start_time e)
  else mkEntry None stopped (start_time e).

(** A program that, run to its end or to an exception, leaves a
    consistent registry consistent. *)
Definition keeps_consistent {W : Type} `{World W} {A : Type} (p : Prog A) : Prop :=
  forall s : Sys W, consistent (registry s) -> consistent (registry (run p s).2).

(** A program that never writes to the registry. *)
Definition reads_only {W : Type} `{World W} {A : Type} (p : Prog A) : Prop :=
  forall s : Sys W, registry (run p s).2 = registry s.

Definition is_subprocess {X : Type} (e : Eff X) : bool :=
  match e with
  | SubprocessRun _ => true
  | _ => false
  end.

(** [budget n p]: along every path, [p] reaches [subprocess.run] at most
    [n] times. *)
Fixpoint budget {A : Type} (n : nat) (p : Prog A) : Prop :=
  match p with
  | Ret _ => True
  | Throw _ => True
  | Vis e k =>
      if is_subprocess e
      then match n with
           | O => False
           | S m => forall x, budget m (k x)
           end
      else forall x, budget n (k x)
  end.

(** A view that has returned or raised. *)
Definition finished {A : Type} (r : Exn + A) : Prog A :=
  match r with
  | inr a => Ret a
  | inl e => Throw e
  end.

(** The connections in the order [get_process_by_port] looks at them,
    each with the pid of its process. *)
Definition connections_of (ps : list ProcInfo) : list (Z * Conn) :=
  flat_map (fun p => map (fun c => (proc_pid p, c)) (default [] (proc_connections p))) ps.

(** [passed port pc]: the test ran on this connection, without an
    exception, and was false. *)
Definition passed (port : Z) (pc : Z * Conn) : Prop :=
  conn_listens port pc.2 = Some false.

(** What a request spends in the outside world. *)
Inductive Resource : Type :=
| Scans
| Requests
| Scripts
| SleepSeconds.

Definition ev_cost (r : Resource) (ev : Event) : nat :=
  match r, ev with
  | Scans, EvScan _ => 1
  | Requests, EvHttp _ _ => 1
  | Scripts, EvScript _ _ => 1
  | SleepSeconds, EvSleep secs => Z.to_nat secs
  | _, _ => 0
  end.

(** The amount of [r] spent along a trace. *)
Fixpoint used (r : Resource) (t : list Event) : nat :=
  match t with
  | [] => 0
  | ev :: t' => ev_cost r ev + used r t'
  end.

Definition eff_cost {X : Type} (r : Resource) (e : Eff X) : nat :=
  match e with
  | ProcessIter => match r with Scans => 1 | _ => 0 end
  | HttpGet _ => match r with Requests => 1 | _ => 0 end
  | SubprocessRun _ => match r with Scripts => 1 | _ => 0 end
  | Sleep secs => match r with SleepSeconds => Z.to_nat secs | _ => 0 end
  | _ => 0
  end.

(** [within r n p]: along every path, [p] spends at most [n] of [r]. *)
Fixpoint within {A : Type} (r : Resource) (n : nat) (p : Prog A) : Prop :=
  match p with
  | Ret _ => True
  | Throw _ => True
  | Vis e k => eff_cost r e <= n /\ forall x, within r (n - eff_cost r e) (k x)
  end.

(** A bound for each resource. *)
Definition cap (scans requests scripts seconds : nat) (r : Resource) : nat :=
  match r with
  | Scans => scans
  | Requests => requests
  | Scripts => scripts
  | SleepSeconds => seconds
  end.

(** The pid and the status of an entry, the two fields reconciliation
    writes. *)
Definition observed (e : Entry) : option Z * Status := (pid e, status e).

(** ** The interpreter *)

Section Facts.
Context {W : Type} `{World W}.

Implicit Types s : Sys W.

Lemma run_bind {A B : Type} (m : Prog A) (f : A -> Prog B) s :
  run (bind m f) s =
  match run m s with
  | (inr a, s') => run (f a) s'
  | (inl e, s') => (inl e, s')
  end.
Proof.
  revert s. induction m as [a | e | X e k IH]; intros s; simpl; try reflexivity.
  destruct (react e s) as [[ex | x] s']; [reflexivity | apply IH].
Qed.

Lemma run_perform {X : Type} (e : Eff X) s : run (perform e) s = react e s.
Proof.
  unfold perform. simpl. destruct (react e s) as [[ex | x] s']; reflexivity.
Qed.

Lemma react_trace {X : Type} (e : Eff X) s :
  exists t, trace (react e s).2 = trace s ++ t.
Proof.
  destruct e; simpl; unfold assign;
    repeat match goal with
           | |- context [process_iter ?w] => destruct (process_iter w)
           | |- context [requests_get ?u ?w] => destruct (requests_get u w)
           | |- context [subprocess_run ?p ?w] => destruct (subprocess_run p w)
           | |- context [registry ?s !! ?k] => destruct (registry s !! k)
           end; simpl; eauto; exists []; by rewrite app_nil_r.
Qed.

(** A run only ever appends to the trace. *)
Lemma run_trace {A : Type} (p : Prog A) s :
  exists t, trace (run p s).2 = trace s ++ t.
Proof.
  revert s. induction p as [a | e | X e k IH]; intros s; simpl;
    try (exists []; by rewrite app_nil_r).
  destruct (react_trace e s) as [t1 Ht1].
  destruct (react e s) as [[ex | x] s1]; simpl in Ht1; [eauto |].
  destruct (IH x s1) as [t2 Ht2].
  exists (t1 ++ t2). by rewrite Ht2, Ht1, app_assoc.
Qed.

Lemma scripts_run_app t1 t2 : scripts_run (t1 ++ t2) = scripts_run t1 + scripts_run t2.
Proof. induction t1 as [| ev t1 IH]; simpl; [done | rewrite IH; lia]. Qed.

Lemma known_spec service :
  known service = true <-> service = "nllb" \/ service = "ollama".
Proof.
  unfold known. rewrite orb_true_iff, !bool_decide_eq_true. tauto.
Qed.

Lemma known_health_url service :
  known service = true -> exists url, health_url service = Some url.
Proof.
  intros [-> | ->]%known_spec; eexists; reflexivity.
Qed.

Lemma probe_ok_true o : probe_ok o = true -> o = HttpResponse 200.
Proof.
  destruct o as [code |]; simpl; [| discriminate].
  by intros ->%bool_decide_eq_true.
Qed.

(** What one call of [check_service_health] does. *)
Lemma run_check_service_health service s :
  run (check_service_health service) s =
  match health_url service with
  | None => (inr false, s)
  | Some url =>
      let '(o, w) := requests_get url (world s) in
      (inr (probe_ok o), mkSys (registry s) w (trace s ++ [EvHttp url o]))
  end.
Proof.
  unfold check_service_health. destruct (health_url service) as [url |]; [| reflexivity].
  simpl. by destruct (requests_get url (world s)).
Qed.

Lemma check_service_health_total service s :
  exists b s', run (check_service_health service) s = (inr b, s')
               /\ registry s' = registry s.
Proof.
  rewrite run_check_service_health.
  destruct (health_url service) as [url |]; [| eauto].
  destruct (requests_get url (world s)); eauto.
Qed.

Lemma check_service_health_true service s s1 :
  run (check_service_health service) s = (inr true, s1) ->
  exists url, health_url service = Some url
              /\ trace s1 = trace s ++ [EvHttp url (HttpResponse 200)]
              /\ registry s1 = registry s.
Proof.
  rewrite run_check_service_health.
  destruct (health_url service) as [url |]; [| discriminate].
  destruct (requests_get url (world s)) as [o w].
  intros [= Ho <-]. apply probe_ok_true in Ho as ->. eauto.
Qed.

Lemma check_service_health_false service s s1 :
  known service = true ->
  run (check_service_health service) s = (inr false, s1) ->
  exists url o, health_url service = Some url
                /\ probe_ok o = false
                /\ trace s1 = trace s ++ [EvHttp url o]
                /\ registry s1 = registry s.
Proof.
  intros [url Hu]%known_health_url. rewrite run_check_service_health, Hu.
  destruct (requests_get url (world s)) as [o w].
  intros [= Ho <-]. eauto 6.
Qed.

Lemma run_run_script path s :
  run (run_script path) s =
  let '(o, w) := subprocess_run path (world s) in
  (inr (script_result o), mkSys (registry s) w (trace s ++ [EvScript path o])).
Proof.
  unfold run_script. simpl. by destruct (subprocess_run path (world s)).
Qed.

Lemma run_get_process_by_port port s :
  run (get_process_by_port port) s =
  let '(sc, w) := process_iter (world s) in
  (inr (first_listener port (procs sc)),
   mkSys (registry s) w (trace s ++ [EvScan sc])).
Proof.
  unfold get_process_by_port. simpl. by destruct (process_iter (world s)).
Qed.

Lemma react_dom {X : Type} (e : Eff X) s :
  dom (registry (react e s).2) = dom (registry s).
Proof.
  destruct e; simpl; unfold assign;
    repeat match goal with
           | |- context [process_iter ?w] => destruct (process_iter w)
           | |- context [requests_get ?u ?w] => destruct (requests_get u w)
           | |- context [subprocess_run ?p ?w] => destruct (subprocess_run p w)
           | |- context [registry ?s !! ?k] => destruct (registry s !! k) eqn:?
           end; simpl; try done; by apply dom_insert_lookup_L.
Qed.

(** No program adds or removes a name. *)
Lemma run_dom {A : Type} (p : Prog A) s :
  dom (registry (run p s).2) = dom (registry s).
Proof.
  revert s. induction p as [a | e | X e k IH]; intros s; simpl; try done.
  pose proof (react_dom e s) as Hd.
  destruct (react e s) as [[ex | x] s1]; simpl in Hd; [done |].
  by rewrite IH.
Qed.

Lemma reg_wf_dom (reg : gmap string Entry) :
  reg_wf reg <-> "nllb" ∈ dom reg /\ "ollama" ∈ dom reg.
Proof. unfold reg_wf. by rewrite !elem_of_dom. Qed.

Lemma run_wf {A : Type} (p : Prog A) s :
  reg_wf (registry s) -> reg_wf (registry (run p s).2).
Proof. rewrite !reg_wf_dom. by rewrite run_dom. Qed.

Lemma service_processes_wf : reg_wf service_processes.
Proof. split; eexists; reflexivity. Qed.

(** Every state the server reaches holds both names. *)
Lemma serve_wf rqs s : reg_wf (registry s) -> reg_wf (registry (serve rqs s)).
Proof.
  revert s. induction rqs as [| rq rqs IH]; intros s Hs; [done |].
  apply IH. by apply run_wf.
Qed.

Lemma boot_wf (w : W) : reg_wf (registry (boot w)).
Proof. apply run_wf, service_processes_wf. Qed.

End Facts.

(** ** Reconciliation *)

Section Reconcile.
Context {W : Type} `{World W}.

Implicit Types s : Sys W.

Lemma run_assign_pair service p st s e :
  registry s !! service = Some e ->
  run (perform (SetPid service p) ;;; perform (SetStatus service st)) s
  = (inr tt, mkSys (<[service := mkEntry p st (start_time e)]> (registry s))
               (world s) (trace s)).
Proof.
  intros He. simpl. unfold assign. rewrite He. simpl.
  rewrite lookup_insert_eq. simpl. by rewrite insert_insert_eq.
Qed.

Lemma run_assign_missing service p st s :
  registry s !! service = None ->
  run (perform (SetPid service p) ;;; perform (SetStatus service st)) s
  = (inl (KeyError service), s).
Proof. intros He. simpl. unfold assign. by rewrite He. Qed.

(** One round of the loop: the port scan, the health probe only
    for a true pid, then the two assignments of the branch taken. *)
Lemma run_reconcile service s :
  exists p ok s1,
    registry s1 = registry s
    /\ (ok = true -> pid_truthy p = true)
    /\ run (reconcile service) s =
       run (if ok
            then (perform (SetPid service p) ;;; perform (SetStatus service running))
            else (perform (SetPid service None) ;;; perform (SetStatus service stopped))) s1.
Proof.
  unfold reconcile. rewrite run_bind, run_get_process_by_port.
  destruct (process_iter (world s)) as [sc w1].
  set (p := first_listener (port_of service) (procs sc)).
  rewrite run_bind. destruct (pid_truthy p) eqn:Hp.
  - match goal with |- context [run (check_service_health service) ?s0] =>
      destruct (check_service_health_total service s0) as (b & s1 & Hc & Hr) end.
    rewrite Hc. exists p, b, s1. by rewrite Hr.
  - eexists p, false, _. split; [| split; [discriminate | reflexivity]].
    reflexivity.
Qed.

Lemma run_reconcile_present service s e :
  registry s !! service = Some e ->
  exists p ok s',
    run (reconcile service) s = (inr tt, s')
    /\ registry s' = <[service := reconciled p ok e]> (registry s)
    /\ (ok = true -> pid_truthy p = true).
Proof.
  intros He. destruct (run_reconcile service s) as (p & ok & s1 & Hr & Hok & ->).
  rewrite <- Hr in He. exists p, ok.
  destruct ok; rewrite (run_assign_pair _ _ _ _ _ He); eexists;
    (split; [reflexivity |]); simpl; by rewrite Hr.
Qed.

Lemma run_reconcile_missing service s :
  registry s !! service = None ->
  exists s', run (reconcile service) s = (inl (KeyError service), s')
             /\ registry s' = registry s.
Proof.
  intros He. destruct (run_reconcile service s) as (p & ok & s1 & Hr & Hok & ->).
  rewrite <- Hr in He. exists s1.
  destruct ok; by rewrite (run_assign_missing _ _ _ _ He).
Qed.

(** With both names in the registry, [update_service_status] runs to
    its end and overwrites exactly the two entries. *)
Lemma run_update_service_status s :
  reg_wf (registry s) ->
  exists p1 ok1 p2 ok2 e1 e2 s',
    registry s !! "nllb" = Some e1
    /\ registry s !! "ollama" = Some e2
    /\ run update_service_status s = (inr tt, s')
    /\ registry s' = <["ollama" := reconciled p2 ok2 e2]>
                       (<["nllb" := reconciled p1 ok1 e1]> (registry s))
    /\ (ok1 = true -> pid_truthy p1 = true)
    /\ (ok2 = true -> pid_truthy p2 = true).
Proof.
  intros [[e1 He1] [e2 He2]].
  destruct (run_reconcile_present "nllb" s e1 He1) as (p1 & ok1 & s1 & Hrun1 & Hreg1 & Hok1).
  assert (He2' : registry s1 !! "ollama" = Some e2)
    by (rewrite Hreg1, lookup_insert_ne; done).
  destruct (run_reconcile_present "ollama" s1 e2 He2') as (p2 & ok2 & s2 & Hrun2 & Hreg2 & Hok2).
  exists p1, ok1, p2, ok2, e1, e2, s2. repeat (split; [done |]).
  split; [| split; [by rewrite Hreg2, Hreg1 | done]].
  unfold update_service_status. cbn [for_each].
  rewrite run_bind, Hrun1. cbv beta iota.
  rewrite run_bind, Hrun2. reflexivity.
Qed.

Lemma reconciled_start_time p ok e : start_time (reconciled p ok e) = start_time e.
Proof. by destruct ok. Qed.

Lemma reconciled_consistent p ok e :
  (ok = true -> pid_truthy p = true) -> entry_consistent (reconciled p ok e).
Proof.
  intros Hok. unfold entry_consistent. destruct ok; simpl; [| done].
  specialize (Hok eq_refl). destruct p; [done | discriminate].
Qed.

Lemma update_service_status_wf s s' :
  reg_wf (registry s) ->
  run update_service_status s = (inr tt, s') ->
  reg_wf (registry s').
Proof.
  intros Hwf Hrun.
  destruct (run_update_service_status s Hwf)
    as (p1 & ok1 & p2 & ok2 & e1 & e2 & s2 & _ & _ & Hrun2 & Hreg & _).
  rewrite Hrun2 in Hrun. injection Hrun as <-. rewrite Hreg. split.
  - rewrite lookup_insert_ne, lookup_insert_eq; done.
  - rewrite lookup_insert_eq; done.
Qed.

End Reconcile.

(** ** Validation of the service name *)

Section Validation.
Context {W : Type} `{World W}.

Implicit Types s : Sys W.

Lemma unknown_not_known service :
  service <> "nllb" -> service <> "ollama" -> known service = false.
Proof.
  intros H1 H2. unfold known.
  by rewrite !bool_decide_eq_false_2.
Qed.

(** C8: for a name other than nllb and ollama, the start, stop and
    restart endpoints all answer 400 with the invalid-service body, and
    the whole state (registry, outside world, trace of effects) is the
    one before the call: nothing was run and nothing was written. *)
Theorem unknown_service_rejected service s :
  service <> "nllb" -> service <> "ollama" ->
  (run (start_service service) s = (inr invalid_service, s)
   /\ run (stop_service service) s = (inr invalid_service, s)
   /\ run (restart_service service) s = (inr invalid_service, s))
  /\ http_status (inr invalid_service) = 400%Z
  /\ (forall h, h ∈ [POST_start service; POST_stop service; POST_restart service] ->
        registry (run (dispatch h) s).2 = registry s
        /\ scripts_run (trace (run (dispatch h) s).2) = scripts_run (trace s)).
Proof.
  intros H1 H2. pose proof (unknown_not_known service H1 H2) as Hk.
  assert (Hs : run (start_service service) s = (inr invalid_service, s))
    by (unfold start_service; by rewrite Hk).
  assert (Hp : run (stop_service service) s = (inr invalid_service, s))
    by (unfold stop_service; by rewrite Hk).
  assert (Hr : run (restart_service service) s = (inr invalid_service, s))
    by (unfold restart_service; by rewrite Hk).
  split; [by repeat split |]. split; [reflexivity |].
  intros h Hin. set_unfold in Hin.
  destruct Hin as [-> | [-> | [-> | []]]]; simpl; by rewrite ?Hs, ?Hp, ?Hr.
Qed.

End Validation.

Lemma unknown_service_rejected_witness :
  (run (start_service "llama") (fresh (mkOracle [] [HttpResponse 200] []))
     = (inr invalid_service, fresh (mkOracle [] [HttpResponse 200] []))
   /\ run (stop_service "llama") (fresh (mkOracle [] [HttpResponse 200] []))
     = (inr invalid_service, fresh (mkOracle [] [HttpResponse 200] []))
   /\ run (restart_service "llama") (fresh (mkOracle [] [HttpResponse 200] []))
     = (inr invalid_service, fresh (mkOracle [] [HttpResponse 200] []))).
Proof.
  apply (unknown_service_rejected "llama" (fresh (mkOracle [] [HttpResponse 200] [])));
    discriminate.
Defined.

(** ** The script runner *)

Section ScriptRunner.
Context {W : Type} `{World W}.

Implicit Types s : Sys W.

(** C7 (amended): a script that runs into the timeout makes
    [run_script] return the triple ['', 'Script timed out', 1]: an
    ordinary failed result with the non-zero return code 1, the very
    result of a script that exits with code 1 after writing that text to
    its stderr. *)
Theorem run_script_timeout path s w :
  subprocess_run path (world s) = (TimeoutExpired, w) ->
  exists s', run (run_script path) s = (inr ("", "Script timed out", 1%Z), s')
             /\ registry s' = registry s
             /\ trace s' = trace s ++ [EvScript path TimeoutExpired]
             /\ (1 <> 0)%Z
             /\ forall s2 w2,
                  subprocess_run path (world s2) = (Completed "" "Script timed out" 1%Z, w2) ->
                  (run (run_script path) s2).1 = (run (run_script path) s).1.
Proof.
  intros Hw. rewrite run_run_script, Hw. eexists.
  split; [reflexivity |]. split; [reflexivity |]. split; [reflexivity |].
  split; [done |]. intros s2 w2 Hw2. by rewrite run_run_script, Hw2.
Qed.

End ScriptRunner.

Lemma run_script_timeout_witness :
  exists s', run (run_script (start_script "nllb")) (fresh (mkOracle [] [] [TimeoutExpired]))
             = (inr ("", "Script timed out", 1%Z), s')
             /\ registry s' = service_processes
             /\ trace s' = [] ++ [EvScript (start_script "nllb") TimeoutExpired].
Proof.
  assert (Hw : subprocess_run (start_script "nllb")
                 (world (fresh (mkOracle [] [] [TimeoutExpired])))
               = (TimeoutExpired, mkOracle [] [] [])) by reflexivity.
  destruct (run_script_timeout _ _ _ Hw) as (s' & Hrun & Hreg & Htrace & _).
  exists s'. repeat split; assumption.
Defined.

(** C7 (as stated, refuted): a timeout and a script that exits with code
    1 after printing "Script timed out" on stderr give [run_script] the
    same result, so a caller cannot tell which of the two occurred. *)
Lemma run_script_timeout_indistinguishable :
  (run (run_script (start_script "nllb")) (fresh (mkOracle [] [] [TimeoutExpired]))).1
  = (run (run_script (start_script "nllb"))
       (fresh (mkOracle [] [] [Completed "" "Script timed out" 1%Z]))).1
  /\ (run (run_script (start_script "nllb")) (fresh (mkOracle [] [] [TimeoutExpired]))).1
     = inr ("", "Script timed out", 1%Z).
Proof. split; reflexivity. Qed.

(** ** Start *)

Section Start.
Context {W : Type} `{World W}.

Implicit Types s : Sys W.

(** C4: when the health probe at the start of Start answers true, Start
    returns the already-running success (HTTP 200, status running) at
    once; the single effect performed is that probe, so no script is
    run, and the registry is the one before the call. *)
Theorem start_service_already_running service s s1 :
  known service = true ->
  run (check_service_health service) s = (inr true, s1) ->
  run (start_service service) s = (inr (already_running service), s1)
  /\ http_status (inr (already_running service)) = 200%Z
  /\ succeeded (already_running service) = true
  /\ dict_get "status" JNull (body_of (already_running service)) = JStr "running"
  /\ registry s1 = registry s
  /\ scripts_run (trace s1) = scripts_run (trace s)
  /\ exists url, health_url service = Some url
                 /\ trace s1 = trace s ++ [EvHttp url (HttpResponse 200)].
Proof.
  intros Hk Hc.
  destruct (check_service_health_true _ _ _ Hc) as (url & Hu & Ht & Hr).
  split.
  { unfold start_service. rewrite Hk. simpl negb. cbv iota.
    by rewrite run_bind, Hc. }
  split; [reflexivity |]. split; [reflexivity |]. split; [reflexivity |].
  split; [assumption |]. split; [| eauto].
  rewrite Ht, scripts_run_app. simpl. lia.
Qed.

Lemma wait_until_ready_success n service out s r s' :
  run (wait_until_ready n service out) s = (inr r, s') ->
  succeeded r = true ->
  exists url pre post,
    health_url service = Some url
    /\ trace s' = trace s ++ pre ++ EvHttp url (HttpResponse 200) :: post.
Proof.
  revert s. induction n as [| n IH]; intros s Hrun Hok.
  { simpl in Hrun. injection Hrun as <- <-. discriminate Hok. }
  cbn [wait_until_ready] in Hrun.
  rewrite run_bind, run_perform in Hrun. cbn [react] in Hrun.
  set (sa := mkSys (registry s) (time_sleep 2 (world s)) (trace s ++ [EvSleep 2])) in Hrun.
  rewrite run_bind in Hrun.
  destruct (run (check_service_health service) sa) as [[ex | b] sb] eqn:Hc;
    [discriminate |].
  destruct b.
  - destruct (check_service_health_true _ _ _ Hc) as (url & Hu & Ht & _).
    rewrite run_bind in Hrun.
    destruct (run_trace update_service_status sb) as [t Hext].
    destruct (run update_service_status sb) as [[ex | []] sc]; [discriminate |].
    simpl in Hrun, Hext. injection Hrun as <- <-.
    exists url, [EvSleep 2], t. split; [done |].
    rewrite Hext, Ht. simpl. by rewrite <- !app_assoc.
  - destruct (IH sb Hrun Hok) as (url & pre & post & Hu & Ht).
    destruct (run_trace (check_service_health service) sa) as [t0 Hext].
    rewrite Hc in Hext. simpl in Hext.
    exists url, (EvSleep 2 :: t0 ++ pre), post. split; [done |].
    rewrite Ht, Hext. simpl. by rewrite <- !app_assoc.
Qed.

(** C5: whatever the probes and the script answer, for any name, a
    Start that returns a response with success true has, among the
    effects it performed itself, a probe of the service's health URL
    that was answered with 200, the one answer for which
    [check_service_health] returns true. *)
Theorem start_success_needs_probe service s r s' :
  run (start_service service) s = (inr r, s') ->
  succeeded r = true ->
  exists url pre post,
    health_url service = Some url
    /\ probe_ok (HttpResponse 200) = true
    /\ trace s' = trace s ++ pre ++ EvHttp url (HttpResponse 200) :: post.
Proof.
  intros Hrun Hok. unfold start_service in Hrun.
  destruct (known service); cbn [negb] in Hrun;
    [| injection Hrun as <- <-; discriminate Hok].
  rewrite run_bind in Hrun.
  destruct (run (check_service_health service) s) as [[ex | up] sa] eqn:Hc;
    [discriminate |].
  destruct up.
  - injection Hrun as <- <-.
    destruct (check_service_health_true _ _ _ Hc) as (url & Hu & Ht & _).
    exists url, [], []. by rewrite Ht.
  - rewrite run_bind, run_run_script in Hrun.
    destruct (run_trace (check_service_health service) s) as [t0 Hext].
    rewrite Hc in Hext. simpl in Hext.
    destruct (subprocess_run (start_script service) (world sa)) as [o w].
    destruct (script_result o) as [[out err] rc].
    destruct (bool_decide (rc = 0%Z)); cbn [negb] in Hrun;
      [| injection Hrun as <- <-; discriminate Hok].
    destruct (wait_until_ready_success _ _ _ _ _ _ Hrun Hok)
      as (url & pre & post & Hu & Ht).
    exists url, (t0 ++ EvScript (start_script service) o :: pre), post.
    split; [done |]. split; [done |].
    rewrite Ht. simpl. rewrite Hext. by rewrite <- !app_assoc.
Qed.

Lemma idle_polls_snoc url k t o :
  idle_polls url k t = true ->
  probe_ok o = false ->
  idle_polls url (S k) (EvSleep 2 :: EvHttp url o :: t) = true.
Proof.
  intros Ht Ho. cbn [idle_polls].
  by rewrite Ho, Ht, !bool_decide_eq_true_2.
Qed.

(** The polling loop with [n] attempts left: [k] failed rounds, then
    either a positive probe and a reconciliation, or [k = n] and the
    timeout answer. *)
Lemma wait_until_ready_rounds n service out url s :
  health_url service = Some url ->
  reg_wf (registry s) ->
  exists k t,
    idle_polls url k t = true
    /\ ((k < n
         /\ exists s2 s3,
             trace s2 = trace s ++ t ++ [EvSleep 2; EvHttp url (HttpResponse 200)]
             /\ run update_service_status s2 = (inr tt, s3)
             /\ run (wait_until_ready n service out) s = (inr (started service out), s3))
        \/ (k = n
            /\ exists s1,
                trace s1 = trace s ++ t
                /\ run (wait_until_ready n service out) s
                   = (inr (start_timed_out service out), s1))).
Proof.
  intros Hu. revert s. induction n as [| n IH]; intros s Hwf.
  { exists 0, []. split; [done |]. right. split; [done |].
    exists s. by rewrite app_nil_r. }
  cbn [wait_until_ready]. rewrite run_bind, run_perform. cbn [react].
  set (sa := mkSys (registry s) (time_sleep 2 (world s)) (trace s ++ [EvSleep 2])).
  rewrite run_bind, run_check_service_health, Hu.
  destruct (requests_get url (world sa)) as [o w].
  set (sb := mkSys (registry sa) w (trace sa ++ [EvHttp url o])).
  destruct (probe_ok o) eqn:Ho.
  - apply probe_ok_true in Ho as ->.
    destruct (run_update_service_status sb Hwf)
      as (p1 & ok1 & p2 & ok2 & e1 & e2 & s3 & _ & _ & Hrun & _).
    exists 0, []. split; [done |]. left. split; [lia |].
    exists sb, s3. split; [| split; [done |]].
    + subst sb sa. simpl. by rewrite <- app_assoc.
    + by rewrite run_bind, Hrun.
  - destruct (IH sb Hwf) as (k & t & Hidle & Hcase).
    exists (S k), (EvSleep 2 :: EvHttp url o :: t).
    split; [by apply idle_polls_snoc |].
    assert (Htr : forall t', trace sb ++ t' = trace s ++ EvSleep 2 :: EvHttp url o :: t')
      by (intros t'; subst sb sa; simpl; by rewrite <- !app_assoc).
    destruct Hcase as [(Hlt & s2 & s3 & Ht & Hrun & Hw) | (-> & s1 & Ht & Hw)].
    + left. split; [lia |]. exists s2, s3.
      split; [by rewrite Ht, Htr |]. by split.
    + right. split; [done |]. exists s1. split; [by rewrite Ht, Htr | done].
Qed.

(** C6: for a known name whose first probe is negative and whose start
    script exits with code 0, Start polls: [k] rounds of a two-second
    sleep and a negative probe, with [k] at most 15.  Either [k] is
    under 15 and round [k + 1] is the first positive probe, after which
    Start reconciles and answers 200 with the started body; or all 15
    rounds were negative, nothing else was done, and Start answers 500
    with the timed-out body although the script exited cleanly. *)
Theorem start_service_polls_fifteen service s sa out err s0 :
  known service = true ->
  reg_wf (registry s) ->
  run (check_service_health service) s = (inr false, sa) ->
  run (run_script (start_script service)) sa = (inr (out, err, 0%Z), s0) ->
  exists url k t,
    health_url service = Some url
    /\ idle_polls url k t = true
    /\ ((k < 15
         /\ exists s2 s3,
             trace s2 = trace s0 ++ t ++ [EvSleep 2; EvHttp url (HttpResponse 200)]
             /\ run update_service_status s2 = (inr tt, s3)
             /\ run (start_service service) s = (inr (started service out), s3)
             /\ succeeded (started service out) = true
             /\ http_status (inr (started service out)) = 200%Z)
        \/ (k = 15
            /\ exists s1,
                trace s1 = trace s0 ++ t
                /\ run (start_service service) s = (inr (start_timed_out service out), s1)
                /\ succeeded (start_timed_out service out) = false
                /\ http_status (inr (start_timed_out service out)) = 500%Z)).
Proof.
  intros Hk Hwf Hc Hscript.
  destruct (known_health_url service Hk) as [url Hu].
  assert (Hwf0 : reg_wf (registry s0)).
  { destruct (check_service_health_total service s) as (b & sa' & Hc' & Hra).
    rewrite Hc in Hc'. injection Hc' as _ <-.
    rewrite run_run_script in Hscript.
    destruct (subprocess_run (start_script service) (world sa)).
    injection Hscript as _ <-. simpl. by rewrite Hra. }
  assert (Hstart : run (start_service service) s = run (wait_until_ready 15 service out) s0).
  { unfold start_service. rewrite Hk. cbn [negb].
    rewrite run_bind, Hc. cbv beta iota.
    rewrite run_bind, Hscript. cbv beta iota.
    by rewrite bool_decide_eq_true_2. }
  destruct (wait_until_ready_rounds 15 service out url s0 Hu Hwf0) as (k & t & Hidle & Hcase).
  exists url, k, t. split; [done |]. split; [done |].
  destruct Hcase as [(Hlt & s2 & s3 & Ht & Hrun & Hw) | (-> & s1 & Ht & Hw)].
  - left. split; [done |]. exists s2, s3. rewrite Hstart. by repeat split.
  - right. split; [done |]. exists s1. rewrite Hstart. by repeat split.
Qed.

End Start.

Lemma start_success_needs_probe_witness :
  exists url pre post,
    health_url "nllb" = Some url
    /\ probe_ok (HttpResponse 200) = true
    /\ trace (run (start_service "nllb")
                (fresh (mkOracle [] [HttpRaised; HttpResponse 200] [Completed "" "" 0%Z]))).2
       = [] ++ pre ++ EvHttp url (HttpResponse 200) :: post.
Proof.
  eapply (start_success_needs_probe "nllb"
            (fresh (mkOracle [] [HttpRaised; HttpResponse 200] [Completed "" "" 0%Z]))).
  - vm_compute. reflexivity.
  - reflexivity.
Defined.

Lemma start_service_already_running_witness :
  run (start_service "ollama") (fresh (mkOracle [] [HttpResponse 200] []))
  = (inr (already_running "ollama"),
     mkSys service_processes (mkOracle [] [] [])
       [EvHttp "http://localhost:8001/health" (HttpResponse 200)]).
Proof.
  apply (start_service_already_running "ollama" (fresh (mkOracle [] [HttpResponse 200] []))); reflexivity.
Defined.

Lemma start_service_polls_fifteen_witness :
  let s := fresh third_probe in
  let sa := (run (check_service_health "nllb") s).2 in
  let s0 := (run (run_script (start_script "nllb")) sa).2 in
  exists url k t,
    health_url "nllb" = Some url
    /\ idle_polls url k t = true
    /\ ((k < 15
         /\ exists s2 s3,
             trace s2 = trace s0 ++ t ++ [EvSleep 2; EvHttp url (HttpResponse 200)]
             /\ run update_service_status s2 = (inr tt, s3)
             /\ run (start_service "nllb") s = (inr (started "nllb" "started"), s3)
             /\ succeeded (started "nllb" "started") = true
             /\ http_status (inr (started "nllb" "started")) = 200%Z)
        \/ (k = 15
            /\ exists s1,
                trace s1 = trace s0 ++ t
                /\ run (start_service "nllb") s = (inr (start_timed_out "nllb" "started"), s1)
                /\ succeeded (start_timed_out "nllb" "started") = false
                /\ http_status (inr (start_timed_out "nllb" "started")) = 500%Z)).
Proof.
  intros s sa s0.
  apply (start_service_polls_fifteen "nllb" s sa "started" "" s0).
  - reflexivity.
  - split; eexists; reflexivity.
  - reflexivity.
  - reflexivity.
Defined.

(** The scenario itself: three sleeps, the third probe positive, then
    the reconciliation that stores pid 4242. *)
Example start_nllb_third_probe :
  (run (start_service "nllb") (fresh third_probe)).1 = inr (started "nllb" "started")
  /\ trace (run (start_service "nllb") (fresh third_probe)).2
     = [EvHttp "http://localhost:8000/health" HttpRaised;
        EvScript (start_script "nllb") (Completed "started" "" 0%Z);
        EvSleep 2; EvHttp "http://localhost:8000/health" HttpRaised;
        EvSleep 2; EvHttp "http://localhost:8000/health" (HttpResponse 503);
        EvSleep 2; EvHttp "http://localhost:8000/health" (HttpResponse 200);
        EvScan nllb_listening; EvHttp "http://localhost:8000/health" (HttpResponse 200);
        EvScan (mkScan [] false)]
  /\ registry (run (start_service "nllb") (fresh third_probe)).2 !! "nllb"
     = Some (mkEntry (Some 4242%Z) running None).
Proof. repeat split; vm_compute; reflexivity. Qed.

(** A world that never lets the health check answer: after a clean
    start script all fifteen polls fail. *)
Example start_nllb_never_ready :
  (run (start_service "nllb") (fresh (mkOracle [] [] [Completed "" "" 0%Z]))).1
  = inr (start_timed_out "nllb" "")
  /\ idle_polls "http://localhost:8000/health" 15
       (drop 2 (trace (run (start_service "nllb")
                         (fresh (mkOracle [] [] [Completed "" "" 0%Z]))).2)) = true.
Proof. split; vm_compute; reflexivity. Qed.

(** ** Stop *)

Section Stop.
Context {W : Type} `{World W}.

Implicit Types s : Sys W.

(** C1 (amended): for a known name, Stop succeeds exactly when the stop
    script exits with code 0.  It then waits the two seconds,
    reconciles, and answers 200 with the reconciled status of the
    service, whichever it is, in the ['status'] field; a non-zero exit
    (or a timeout) answers 500 before any reconciliation. *)
Theorem stop_service_reports_reconciled service s out err rc s1 :
  known service = true ->
  reg_wf (registry s) ->
  run (run_script (stop_script service)) s = (inr (out, err, rc), s1) ->
  (rc <> 0%Z ->
     run (stop_service service) s = (inr (stop_failed service out err), s1)
     /\ succeeded (stop_failed service out err) = false
     /\ http_status (inr (stop_failed service out err)) = 500%Z)
  /\ (rc = 0%Z ->
        exists s3 e,
          run (perform (Sleep 2%Z) ;;; update_service_status) s1 = (inr tt, s3)
          /\ registry s3 !! service = Some e
          /\ run (stop_service service) s = (inr (stop_done service (status e) out), s3)
          /\ succeeded (stop_done service (status e) out) = true
          /\ http_status (inr (stop_done service (status e) out)) = 200%Z).
Proof.
  intros Hk Hwf Hscript. unfold stop_service. rewrite Hk. cbn [negb].
  rewrite run_bind, Hscript. cbv beta iota. split.
  - intros Hrc. rewrite bool_decide_eq_false_2 by done. by cbn.
  - intros ->. rewrite bool_decide_eq_true_2 by done. cbn [negb].
    assert (Hwf1 : reg_wf (registry s1)).
    { rewrite run_run_script in Hscript.
      destruct (subprocess_run (stop_script service) (world s)).
      by injection Hscript as _ <-. }
    set (s2 := mkSys (registry s1) (time_sleep 2 (world s1)) (trace s1 ++ [EvSleep 2])).
    destruct (run_update_service_status s2 Hwf1)
      as (p1 & ok1 & p2 & ok2 & e1 & e2 & s3 & _ & _ & Hrun & _).
    pose proof (update_service_status_wf s2 s3 Hwf1 Hrun) as [He1 He2].
    assert (He : is_Some (registry s3 !! service))
      by (apply known_spec in Hk as [-> | ->]; assumption).
    destruct He as [e He].
    assert (Hsettle : run (perform (Sleep 2%Z) ;;; update_service_status) s1 = (inr tt, s3))
      by (rewrite run_bind, run_perform; cbn [react]; exact Hrun).
    exists s3, e. split; [exact Hsettle |]. split; [exact He |].
    split; [| split; reflexivity].
    rewrite run_bind, run_perform. cbn [react]. fold s2.
    rewrite run_bind, Hrun. cbv beta iota.
    rewrite run_bind, run_perform. cbn [react]. by rewrite He.
Qed.

End Stop.

Lemma stop_service_reports_reconciled_witness :
  exists s3 e,
    run (perform (Sleep 2%Z) ;;; update_service_status)
      (mkSys service_processes (mkOracle [nllb_listening; mkScan [] false] [HttpResponse 200] [])
         [EvScript (stop_script "nllb") (Completed "" "" 0%Z)]) = (inr tt, s3)
    /\ registry s3 !! "nllb" = Some e
    /\ run (stop_service "nllb") (fresh stop_ignored) = (inr (stop_done "nllb" (status e) ""), s3)
    /\ succeeded (stop_done "nllb" (status e) "") = true
    /\ http_status (inr (stop_done "nllb" (status e) "")) = 200%Z.
Proof.
  eapply (stop_service_reports_reconciled "nllb" (fresh stop_ignored) "" "" 0%Z).
  - reflexivity.
  - split; eexists; reflexivity.
  - reflexivity.
  - reflexivity.
Defined.

(** C1 (as stated, refuted): the stop script exits with 0, reconciliation
    after the settle delay still finds process 4242 on port 8000 with a
    healthy probe, and Stop answers 200 with success true while the
    status it reports and stores is running. *)
Lemma stop_succeeds_while_still_running :
  (run (stop_service "nllb") (fresh stop_ignored)).1 = inr (stop_done "nllb" running "")
  /\ succeeded (stop_done "nllb" running "") = true
  /\ http_status (run (stop_service "nllb") (fresh stop_ignored)).1 = 200%Z
  /\ registry (run (stop_service "nllb") (fresh stop_ignored)).2 !! "nllb"
     = Some (mkEntry (Some 4242%Z) running None).
Proof. repeat split; vm_compute; reflexivity. Qed.

(** ** Status *)

Section StatusQuery.
Context {W : Type} `{World W}.

Implicit Types s : Sys W.

(** C3 (amended): a status query answers 200 and leaves the registry
    as [update_service_status], its first statement, leaves it: the
    names and every [start_time] are kept, names other than nllb and
    ollama are untouched, and the pid and status of nllb and ollama are
    overwritten by the fresh observation, running with a non-zero pid or
    stopped with no pid. *)
Theorem status_query_reconciles s :
  reg_wf (registry s) ->
  exists r s1 s',
    run update_service_status s = (inr tt, s1)
    /\ run get_services_status s = (inr r, s')
    /\ http_status (inr r) = 200%Z
    /\ registry s' = registry s1
    /\ (forall service,
          start_time <$> registry s' !! service = start_time <$> registry s !! service)
    /\ (forall service, known service = false ->
          registry s' !! service = registry s !! service)
    /\ (forall service e, known service = true ->
          registry s' !! service = Some e ->
          (status e = running /\ pid_truthy (pid e) = true)
          \/ (status e = stopped /\ pid e = None)).
Proof.
  intros Hwf.
  destruct (run_update_service_status s Hwf)
    as (p1 & ok1 & p2 & ok2 & e1 & e2 & s1 & He1 & He2 & Hrun & Hreg & Hok1 & Hok2).
  pose proof (update_service_status_wf s s1 Hwf Hrun) as [[n Hn] [o Ho]].
  destruct (check_service_health_total "nllb" s1) as (nh & s2 & Hc1 & Hr2).
  destruct (check_service_health_total "ollama" s2) as (oh & s3 & Hc2 & Hr3).
  assert (Ho2 : registry s2 !! "ollama" = Some o) by (by rewrite Hr2).
  eexists _, s1, s3. split; [exact Hrun |]. split.
  { unfold get_services_status. rewrite run_bind, Hrun. cbv beta iota.
    rewrite run_bind, run_perform. cbn [react]. rewrite Hn.
    rewrite run_bind, run_perform. cbn [react]. rewrite Hn.
    rewrite run_bind, Hc1.
    rewrite run_bind, run_perform. cbn [react]. rewrite Ho2.
    rewrite run_bind, run_perform. cbn [react]. rewrite Ho2.
    rewrite run_bind, Hc2. reflexivity. }
  split; [reflexivity |]. split; [by rewrite Hr3, Hr2 |].
  rewrite Hr3, Hr2, Hreg. split; [| split].
  - intros service.
    destruct (decide (service = "ollama")) as [-> |];
      [rewrite lookup_insert_eq, He2; simpl; by rewrite reconciled_start_time |].
    rewrite lookup_insert_ne by done.
    destruct (decide (service = "nllb")) as [-> |];
      [rewrite lookup_insert_eq, He1; simpl; by rewrite reconciled_start_time |].
    by rewrite lookup_insert_ne.
  - intros service Hk. unfold known in Hk.
    apply orb_false_iff in Hk as [Hk1%bool_decide_eq_false Hk2%bool_decide_eq_false].
    by rewrite !lookup_insert_ne.
  - intros service e [-> | ->]%known_spec.
    + rewrite lookup_insert_ne, lookup_insert_eq by done. intros [= <-].
      destruct ok1; simpl; auto.
    + rewrite lookup_insert_eq. intros [= <-].
      destruct ok2; simpl; auto.
Qed.

End StatusQuery.

Lemma status_query_reconciles_witness :
  exists r s1 s',
    run update_service_status (fresh nllb_up) = (inr tt, s1)
    /\ run get_services_status (fresh nllb_up) = (inr r, s')
    /\ http_status (inr r) = 200%Z
    /\ registry s' = registry s1.
Proof.
  destruct (status_query_reconciles (fresh nllb_up)) as (r & s1 & s' & H1 & H2 & H3 & H4 & _).
  - split; eexists; reflexivity.
  - exists r, s1, s'. repeat split; assumption.
Defined.

(** C3 (as stated, refuted): queried while NLLB is up, the registry that
    started with nllb stopped and no pid holds nllb running with pid
    4242 afterwards. *)
Lemma status_query_writes_registry :
  registry (fresh nllb_up) !! "nllb" = Some (mkEntry None stopped None)
  /\ registry (run get_services_status (fresh nllb_up)).2 !! "nllb"
     = Some (mkEntry (Some 4242%Z) running None)
  /\ registry (run get_services_status (fresh nllb_up)).2 <> registry (fresh nllb_up).
Proof.
  split; [reflexivity |]. split; [vm_compute; reflexivity |].
  intros Heq. apply (f_equal (fun m : gmap string Entry => m !! "nllb")) in Heq.
  vm_compute in Heq. discriminate.
Qed.

(** ** Restart *)

Section Restart.
Context {W : Type} `{World W}.

Implicit Types s : Sys W.

(** A failed Stop comes back as a tuple; Restart returns it as it is
    and goes no further. *)
Lemma restart_surfaces_stop_failure service s r code s1 :
  known service = true ->
  run (stop_service service) s = (inr (WithCode r code), s1) ->
  succeeded (WithCode r code) = false ->
  run (restart_service service) s = (inr (WithCode r code), s1).
Proof.
  intros Hk Hstop Hfail. unfold restart_service. rewrite Hk. cbn [negb].
  rewrite run_bind, Hstop. cbv beta iota. cbn [subscript0 bind].
  unfold succeeded in Hfail. cbn [body_of] in Hfail. by rewrite Hfail.
Qed.

(** A successful Stop comes back as a bare response; subscripting it
    raises, and the state is the one Stop left. *)
Lemma restart_raises_after_stop_success service s r s1 :
  known service = true ->
  run (stop_service service) s = (inr (Bare r), s1) ->
  run (restart_service service) s
  = (inl (TypeError "'Response' object is not subscriptable"), s1).
Proof.
  intros Hk Hstop. unfold restart_service. rewrite Hk. cbn [negb].
  by rewrite run_bind, Hstop.
Qed.

End Restart.

(** C2 (the code at the failing input): Restart of nllb with both
    scripts ready to exit with 0.  Stop succeeds, the view raises
    [TypeError] on [stop_result[0]], Flask answers 500, and the only
    script that ran is the stop script; Stop, the settle delay and Start
    in sequence would have answered with Start's success. *)
Lemma restart_after_clean_stop_raises :
  (run (stop_service "nllb") (fresh clean_restart)).1 = inr (stop_done "nllb" stopped "stopped")
  /\ (run (restart_service "nllb") (fresh clean_restart)).1
     = inl (TypeError "'Response' object is not subscriptable")
  /\ http_status (run (restart_service "nllb") (fresh clean_restart)).1 = 500%Z
  /\ trace (run (restart_service "nllb") (fresh clean_restart)).2
     = [EvScript (stop_script "nllb") (Completed "stopped" "" 0%Z);
        EvSleep 2; EvScan (mkScan [] false); EvScan (mkScan [] false)]
  /\ scripts_run (trace (run (restart_service "nllb") (fresh clean_restart)).2) = 1
  /\ (run (stop_service "nllb" ;;; perform (Sleep 2%Z) ;;; start_service "nllb")
        (fresh clean_restart)).1 = inr (started "nllb" "started").
Proof. repeat split; vm_compute; reflexivity. Qed.

(** ** The pid and status invariant *)

Section Invariant.
Context {W : Type} `{World W}.

Implicit Types s : Sys W.

Lemma reads_only_keeps {A : Type} (p : Prog A) : reads_only p -> keeps_consistent p.
Proof. intros Hp s Hs. by rewrite Hp. Qed.

Lemma keeps_ret {A : Type} (a : A) : keeps_consistent (Ret a).
Proof. by intros s Hs. Qed.

Lemma keeps_throw {A : Type} (e : Exn) : keeps_consistent (@Throw A e).
Proof. by intros s Hs. Qed.

Lemma keeps_bind {A B : Type} (m : Prog A) (f : A -> Prog B) :
  keeps_consistent m -> (forall a, keeps_consistent (f a)) -> keeps_consistent (bind m f).
Proof.
  intros Hm Hf s Hs. rewrite run_bind. specialize (Hm s Hs).
  destruct (run m s) as [[ex | a] s1]; [done |]. by apply Hf.
Qed.

Lemma reads_only_sleep secs : reads_only (perform (Sleep secs)).
Proof. by intros s. Qed.

Lemma reads_only_lookup service : reads_only (perform (Lookup service)).
Proof. intros s. simpl. by destruct (registry s !! service). Qed.

Lemma reads_only_snapshot : reads_only (perform Snapshot).
Proof. by intros s. Qed.

Lemma reads_only_check_service_health service : reads_only (check_service_health service).
Proof.
  intros s. destruct (check_service_health_total service s) as (b & s1 & -> & Hr). done.
Qed.

Lemma reads_only_run_script path : reads_only (run_script path).
Proof.
  intros s. rewrite run_run_script. by destruct (subprocess_run path (world s)).
Qed.

Lemma consistent_insert service e (reg : gmap string Entry) :
  consistent reg -> entry_consistent e -> consistent (<[service := e]> reg).
Proof.
  intros Hreg He k e'. destruct (decide (service = k)) as [<- | Hne].
  - rewrite lookup_insert_eq. by intros [= <-].
  - rewrite lookup_insert_ne by done. apply Hreg.
Qed.

(** One round of reconciliation writes the pid and the status of one
    entry as a pair, or writes nothing when the name is missing. *)
Lemma keeps_reconcile service : keeps_consistent (reconcile service).
Proof.
  intros s Hs. destruct (registry s !! service) as [e |] eqn:He.
  - destruct (run_reconcile_present service s e He) as (p & ok & s1 & Hrun & Hreg & Hok).
    rewrite Hrun. cbn [snd]. rewrite Hreg.
    apply consistent_insert; [done |]. by apply reconciled_consistent.
  - destruct (run_reconcile_missing service s He) as (s1 & Hrun & Hreg).
    rewrite Hrun. cbn [snd]. by rewrite Hreg.
Qed.

Lemma keeps_update_service_status : keeps_consistent update_service_status.
Proof.
  unfold update_service_status. cbn [for_each].
  repeat (apply keeps_bind; [apply keeps_reconcile | intros _]).
  apply keeps_ret.
Qed.

Lemma keeps_wait_until_ready n service out :
  keeps_consistent (wait_until_ready n service out).
Proof.
  induction n as [| n IH]; cbn [wait_until_ready]; [apply keeps_ret |].
  apply keeps_bind; [apply reads_only_keeps, reads_only_sleep | intros _].
  apply keeps_bind; [apply reads_only_keeps, reads_only_check_service_health | intros ok].
  destruct ok; [| exact IH].
  apply keeps_bind; [apply keeps_update_service_status | intros _; apply keeps_ret].
Qed.

Lemma keeps_start_service service : keeps_consistent (start_service service).
Proof.
  unfold start_service. destruct (negb (known service)); [apply keeps_ret |].
  apply keeps_bind; [apply reads_only_keeps, reads_only_check_service_health | intros up].
  destruct up; [apply keeps_ret |].
  apply keeps_bind; [apply reads_only_keeps, reads_only_run_script | intros [[out err] rc]].
  destruct (negb (bool_decide (rc = 0%Z))); [apply keeps_ret |].
  apply keeps_wait_until_ready.
Qed.

Lemma keeps_stop_service service : keeps_consistent (stop_service service).
Proof.
  unfold stop_service. destruct (negb (known service)); [apply keeps_ret |].
  apply keeps_bind; [apply reads_only_keeps, reads_only_run_script | intros [[out err] rc]].
  destruct (negb (bool_decide (rc = 0%Z))); [apply keeps_ret |].
  apply keeps_bind; [apply reads_only_keeps, reads_only_sleep | intros _].
  apply keeps_bind; [apply keeps_update_service_status | intros _].
  apply keeps_bind; [apply reads_only_keeps, reads_only_lookup | intros e].
  apply keeps_ret.
Qed.

Lemma keeps_restart_service service : keeps_consistent (restart_service service).
Proof.
  unfold restart_service. destruct (negb (known service)); [apply keeps_ret |].
  apply keeps_bind; [apply keeps_stop_service | intros stop_result].
  apply keeps_bind; [destruct stop_result; [apply keeps_throw | apply keeps_ret] | intros r0].
  destruct (negb _); [apply keeps_ret |].
  apply keeps_bind; [apply reads_only_keeps, reads_only_sleep | intros _].
  apply keeps_start_service.
Qed.

Lemma keeps_get_services_status : keeps_consistent get_services_status.
Proof.
  unfold get_services_status.
  apply keeps_bind; [apply keeps_update_service_status | intros _].
  repeat (apply keeps_bind;
          [apply reads_only_keeps;
           first [apply reads_only_lookup | apply reads_only_check_service_health]
          | intros ?]).
  apply keeps_ret.
Qed.

Lemma keeps_dispatch rq : keeps_consistent (dispatch rq).
Proof.
  destruct rq; simpl.
  - apply keeps_bind; [apply reads_only_keeps, reads_only_snapshot | intros; apply keeps_ret].
  - apply keeps_get_services_status.
  - apply keeps_start_service.
  - apply keeps_stop_service.
  - apply keeps_restart_service.
Qed.

Lemma consistent_service_processes : consistent service_processes.
Proof.
  intros service e. unfold service_processes.
  destruct (decide (service = "nllb")) as [-> |];
    [rewrite lookup_insert_eq; by intros [= <-] |].
  rewrite lookup_insert_ne by done.
  destruct (decide (service = "ollama")) as [-> |];
    [rewrite lookup_insert_eq; by intros [= <-] |].
  rewrite lookup_insert_ne by done. by rewrite lookup_empty.
Qed.

Lemma serve_consistent rqs s :
  consistent (registry s) -> consistent (registry (serve rqs s)).
Proof.
  revert s. induction rqs as [| rq rqs IH]; intros s Hs; [done |].
  apply IH. by apply keeps_dispatch.
Qed.

(** C10 (amended): the registry created at import satisfies "pid is
    not None exactly when status is running"; a run of
    [update_service_status] that no other request overlaps keeps it; and
    so it holds of every entry after any sequence of requests to the five
    routes that are served one after the other, whether or not the
    initial [update_service_status] of the main block ran first, in every
    outside world. *)
Theorem pid_set_exactly_when_running (rqs : list Request) (w : W) :
  consistent service_processes
  /\ keeps_consistent update_service_status
  /\ consistent (registry (serve rqs (mkSys service_processes w [])))
  /\ consistent (registry (serve rqs (boot w))).
Proof.
  split; [apply consistent_service_processes |].
  split; [apply keeps_update_service_status |].
  split; apply serve_consistent.
  - apply consistent_service_processes.
  - apply keeps_update_service_status, consistent_service_processes.
Qed.

End Invariant.

(** ** Concurrent requests *)

Section Concurrency.
Context {W : Type} `{World W}.

Implicit Types s : Sys W.

(** A thread left alone performs the effects of [run], in order, and
    ends where [run] ends. *)
Lemma steps_run {A : Type} (p : Prog A) s :
  exists n, steps n p s = (finished (run p s).1, (run p s).2).
Proof.
  revert s. induction p as [a | e | X e k IH]; intros s.
  - by exists 0.
  - by exists 0.
  - cbn [run]. destruct (react e s) as [[ex | x] s1] eqn:Hre.
    + exists 1. cbn [steps step]. by rewrite Hre.
    + destruct (IH x s1) as [n Hn]. exists (S n). cbn [steps step]. by rewrite Hre.
Qed.

Lemma react_scripts {X : Type} (e : Eff X) s :
  scripts_run (trace (react e s).2)
  = scripts_run (trace s) + (if is_subprocess e then 1 else 0).
Proof.
  destruct e; simpl; unfold assign;
    repeat match goal with
           | |- context [process_iter ?w] => destruct (process_iter w)
           | |- context [requests_get ?u ?w] => destruct (requests_get u w)
           | |- context [subprocess_run ?p ?w] => destruct (subprocess_run p w)
           | |- context [registry ?s !! ?k] => destruct (registry s !! k)
           end; simpl; rewrite ?scripts_run_app; simpl; lia.
Qed.

Lemma budget_mono {A : Type} (p : Prog A) n m : n <= m -> budget n p -> budget m p.
Proof.
  revert n m. induction p as [a | e | X e k IH]; intros n m Hle; simpl; try done.
  destruct (is_subprocess e).
  - destruct n as [| n]; [done |]. destruct m as [| m]; [lia |].
    intros Hb x. apply (IH x n m); [lia | apply Hb].
  - intros Hb x. apply (IH x n m); [lia | apply Hb].
Qed.

Lemma budget_bind {A B : Type} (m : Prog A) (f : A -> Prog B) n1 n2 :
  budget n1 m -> (forall a, budget n2 (f a)) -> budget (n1 + n2) (bind m f).
Proof.
  revert n1. induction m as [a | e | X e k IH]; intros n1 Hm Hf; simpl; try done.
  - apply (budget_mono _ n2); [lia | apply Hf].
  - simpl in Hm. destruct (is_subprocess e).
    + destruct n1 as [| n1]; [done |]. intros x. by apply IH.
    + intros x. by apply IH.
Qed.

(** Binding a program that runs no script costs nothing. *)
Lemma budget_bind0 {A B : Type} (m : Prog A) (f : A -> Prog B) n :
  budget 0 m -> (forall a, budget n (f a)) -> budget n (bind m f).
Proof. apply (budget_bind m f 0 n). Qed.

Lemma budget_check_service_health service : budget 0 (check_service_health service).
Proof. unfold check_service_health. by destruct (health_url service). Qed.

Lemma budget_reconcile service : budget 0 (reconcile service).
Proof.
  unfold reconcile. apply budget_bind0; [done | intros p].
  apply budget_bind0.
  - destruct (pid_truthy p); [apply budget_check_service_health | done].
  - by intros [].
Qed.

Lemma budget_update_service_status : budget 0 update_service_status.
Proof.
  unfold update_service_status. cbn [for_each].
  repeat (apply budget_bind0; [apply budget_reconcile | intros _]). done.
Qed.

Lemma budget_wait_until_ready n service out : budget 0 (wait_until_ready n service out).
Proof.
  induction n as [| n IH]; cbn [wait_until_ready]; [done |].
  apply budget_bind0; [done | intros _].
  apply budget_bind0; [apply budget_check_service_health | intros ok].
  destruct ok; [| exact IH].
  apply budget_bind0; [apply budget_update_service_status | done].
Qed.

(** One Start reaches [subprocess.run] at most once. *)
Lemma budget_start_service service : budget 1 (start_service service).
Proof.
  unfold start_service. destruct (negb (known service)); [done |].
  apply budget_bind0; [apply budget_check_service_health | intros up].
  destruct up; [done |].
  apply (budget_bind _ _ 1 0); [done | intros [[out err] rc]].
  destruct (negb _); [done | apply budget_wait_until_ready].
Qed.

Lemma step_budget {A : Type} (p : Prog A) n s :
  budget n p ->
  exists n', budget n' (step p s).1
             /\ scripts_run (trace (step p s).2) + n' = scripts_run (trace s) + n.
Proof.
  destruct p as [a | e | X e k]; simpl; try (exists n; by split).
  intros Hb. pose proof (react_scripts e s) as Hsc.
  destruct (is_subprocess e).
  - destruct n as [| n]; [done |].
    destruct (react e s) as [[ex | x] s1]; simpl in *; exists n; split; try done; lia.
  - destruct (react e s) as [[ex | x] s1]; simpl in *; exists n; split; try done; lia.
Qed.

Lemma sum_list_insert_budget (bs : list nat) i n n' :
  bs !! i = Some n -> sum_list (<[i := n']> bs) + n = sum_list bs + n'.
Proof.
  revert i. induction bs as [| b bs IH]; intros i Hi; [done |].
  destruct i as [| i]; simpl in *.
  - injection Hi as ->. lia.
  - specialize (IH i Hi). lia.
Qed.

Lemma interleave_budget {A : Type} sch :
  forall (pool : list (Prog A)) (bs : list nat) s,
    Forall2 budget bs pool ->
    exists bs', Forall2 budget bs' (interleave sch pool s).1
                /\ scripts_run (trace (interleave sch pool s).2) + sum_list bs'
                   = scripts_run (trace s) + sum_list bs.
Proof.
  induction sch as [| i sch IH]; intros pool bs s Hb; [by exists bs |].
  cbn [interleave]. destruct (pool !! i) as [p |] eqn:Hp; [| by apply IH].
  destruct (Forall2_lookup_r _ _ _ _ _ Hb Hp) as (n & Hn & Hbn).
  destruct (step_budget p n s Hbn) as (n' & Hb' & Hsc).
  destruct (step p s) as [p' s1]. simpl in Hb', Hsc.
  destruct (IH (<[i := p']> pool) (<[i := n']> bs) s1) as (bs' & Hbs' & Hsum).
  { by apply Forall2_insert. }
  exists bs'. split; [done |]. rewrite Hsum.
  pose proof (sum_list_insert_budget bs i n n' Hn). lia.
Qed.

(** C9 (amended): the views take no lock, so the effects of requests in
    flight interleave in any order.  Whatever the schedule, the world
    and the names, the Start requests in flight together reach the start
    script at most once each: no more scripts are run than there are
    Start requests. *)
Theorem concurrent_starts_one_script_each (names : list string) (sch : list nat) s :
  scripts_run (trace (interleave sch (start_service <$> names) s).2)
  <= scripts_run (trace s) + length names.
Proof.
  assert (Hlen : sum_list (repeat 1 (length names)) = length names)
    by (induction names; simpl; lia).
  destruct (interleave_budget sch (start_service <$> names) (repeat 1 (length names)) s)
    as (bs' & _ & Hsum).
  - clear Hlen. induction names as [| service names IH]; simpl; constructor; [| exact IH].
    apply budget_start_service.
  - lia.
Qed.

End Concurrency.

(** C9 (as stated, refuted): two Start requests for nllb in flight
    together.  Both probe before either script has run, both find the
    service down, and both run the start script: two executions, and
    each caller is answered with the output of its own script. *)
Lemma concurrent_starts_run_script_twice :
  (interleave ([0; 1; 0; 1] ++ repeat 0 9 ++ repeat 1 9)
     [start_service "nllb"; start_service "nllb"] (fresh both_probe_first)).1
  = [Ret (started "nllb" "first"); Ret (started "nllb" "second")]
  /\ scripts_run (trace (interleave ([0; 1; 0; 1] ++ repeat 0 9 ++ repeat 1 9)
                           [start_service "nllb"; start_service "nllb"]
                           (fresh both_probe_first)).2) = 2
  /\ take 4 (trace (interleave ([0; 1; 0; 1] ++ repeat 0 9 ++ repeat 1 9)
                      [start_service "nllb"; start_service "nllb"]
                      (fresh both_probe_first)).2)
     = [EvHttp "http://localhost:8000/health" HttpRaised;
        EvHttp "http://localhost:8000/health" HttpRaised;
        EvScript (start_script "nllb") (Completed "first" "" 0%Z);
        EvScript (start_script "nllb") (Completed "second" "" 0%Z)].
Proof. repeat split; vm_compute; reflexivity. Qed.

(** C10 (as stated, refuted): two status queries in flight together,
    the first finding NLLB up, the second finding its port free.  The
    second writes pid and status between the two assignments of the
    first.  Both queries run to their end and answer, and the entry of
    nllb is left with no pid and status running; a health request served
    afterwards finds it so. *)
Lemma overlapping_status_queries_break_invariant :
  (exists r0 r1,
     (interleave ([0; 0; 0; 1; 1; 1; 0] ++ repeat 0 9 ++ repeat 1 9)
        [get_services_status; get_services_status] (fresh up_then_down)).1
     = [Ret r0; Ret r1])
  /\ registry (interleave ([0; 0; 0; 1; 1; 1; 0] ++ repeat 0 9 ++ repeat 1 9)
                 [get_services_status; get_services_status] (fresh up_then_down)).2
     !! "nllb" = Some (mkEntry None running None)
  /\ ~ consistent
        (registry (interleave ([0; 0; 0; 1; 1; 1; 0] ++ repeat 0 9 ++ repeat 1 9)
                     [get_services_status; get_services_status] (fresh up_then_down)).2)
  /\ registry
       (serve [GET_health]
          (interleave ([0; 0; 0; 1; 1; 1; 0] ++ repeat 0 9 ++ repeat 1 9)
             [get_services_status; get_services_status] (fresh up_then_down)).2)
     !! "nllb" = Some (mkEntry None running None).
Proof.
  assert (Hreg : registry (interleave ([0; 0; 0; 1; 1; 1; 0] ++ repeat 0 9 ++ repeat 1 9)
                             [get_services_status; get_services_status]
                             (fresh up_then_down)).2
                 !! "nllb" = Some (mkEntry None running None))
    by (vm_compute; reflexivity).
  split; [eexists _, _; vm_compute; reflexivity |].
  split; [exact Hreg |]. split; [| vm_compute; reflexivity].
  intros Hcons. destruct (Hcons _ _ Hreg) as [_ Hpid]. by apply Hpid.
Qed.

(** The same between two bare reconciliations. *)
Example overlapping_reconciliations_mix_fields :
  registry (interleave [0; 0; 0; 1; 1; 1; 0]
              [update_service_status; update_service_status]
              (fresh up_then_down)).2 !! "nllb"
  = Some (mkEntry None running None).
Proof. vm_compute. reflexivity. Qed.

(** ** The process inspector *)

Section Inspector.

Lemma conn_listens_true port c :
  conn_listens port c = Some true <-> laddr_port c = Some port /\ conn_status c = "LISTEN".
Proof.
  unfold conn_listens. destruct (laddr_port c) as [p |]; [| by split; [| intros []]].
  split.
  - intros [= Hb]. apply andb_true_iff in Hb as [->%bool_decide_eq_true Hs%bool_decide_eq_true].
    done.
  - intros [[= ->] Hs]. by rewrite !bool_decide_eq_true_2.
Qed.

Lemma conn_listens_raises port c : conn_listens port c = None <-> laddr_port c = None.
Proof. unfold conn_listens. by destruct (laddr_port c). Qed.

(** The first connection, in the order of the scan, on which the test
    is true or raises decides the answer. *)
Lemma first_listener_cons_conn port n c conns ps :
  first_listener port (mkProc n (Some (c :: conns)) :: ps) =
  match conn_listens port c with
  | Some true => Some n
  | Some false => first_listener port (mkProc n (Some conns) :: ps)
  | None => None
  end.
Proof. simpl. by destruct (conn_listens port c) as [[|] |]. Qed.

Lemma first_listener_no_conn port p ps :
  default [] (proc_connections p) = [] ->
  first_listener port (p :: ps) = first_listener port ps.
Proof. intros Hp. simpl. by rewrite Hp. Qed.

Lemma connections_of_cons_conn n c conns ps :
  connections_of (mkProc n (Some (c :: conns)) :: ps)
  = (n, c) :: connections_of (mkProc n (Some conns) :: ps).
Proof. reflexivity. Qed.

Lemma connections_of_no_conn p ps :
  default [] (proc_connections p) = [] -> connections_of (p :: ps) = connections_of ps.
Proof. intros Hp. unfold connections_of. simpl. by rewrite Hp. Qed.

(** An induction over the processes and, inside, over the connections
    of the first one. *)
Lemma scan_ind (P : list ProcInfo -> Prop) :
  P [] ->
  (forall p ps, default [] (proc_connections p) = [] -> P ps -> P (p :: ps)) ->
  (forall n c conns ps, P (mkProc n (Some conns) :: ps) -> P (mkProc n (Some (c :: conns)) :: ps)) ->
  forall ps, P ps.
Proof.
  intros Hnil Hnone Hconn. induction ps as [| [n conns] ps IH]; [done |].
  destruct conns as [conns |]; [| by apply Hnone].
  induction conns as [| c conns IHc]; [by apply Hnone | by apply Hconn].
Qed.

(** [get_process_by_port] answers with a pid exactly when, among the
    connections in the order of the scan, there is one with the port as
    local port and status LISTEN that belongs to the process of that pid,
    and on every connection before it the test ran without an exception
    and was false. *)
Theorem first_listener_found port ps n :
  first_listener port ps = Some n <->
  exists pre c post,
    connections_of ps = pre ++ (n, c) :: post
    /\ Forall (passed port) pre
    /\ laddr_port c = Some port
    /\ conn_status c = "LISTEN".
Proof.
  induction ps as [| p ps Hp IH | m c0 conns ps IH] using scan_ind.
  - split; [discriminate |]. intros (pre & c & post & Heq & _). by destruct pre.
  - by rewrite (first_listener_no_conn _ _ _ Hp), (connections_of_no_conn _ _ Hp).
  - rewrite first_listener_cons_conn, connections_of_cons_conn.
    destruct (conn_listens port c0) as [[|] |] eqn:Hc0.
    + pose proof Hc0 as [Hport Hst]%conn_listens_true. split.
      * intros [= <-]. by exists [], c0, (connections_of (mkProc m (Some conns) :: ps)).
      * intros (pre & c & post & Heq & Hpre & Hc).
        destruct pre as [| [k c'] pre]; simplify_eq/=; [done |].
        apply Forall_cons in Hpre as [Hpc _]. unfold passed in Hpc. simpl in Hpc.
        congruence.
    + rewrite IH. split.
      * intros (pre & c & post & -> & Hpre & Hc).
        exists ((m, c0) :: pre), c, post. split; [done |]. split; [| done].
        by constructor.
      * intros (pre & c & post & Heq & Hpre & Hport & Hst).
        destruct pre as [| [k c'] pre]; simplify_eq/=.
        -- assert (conn_listens port c = Some true) by (by apply conn_listens_true).
           congruence.
        -- apply Forall_cons in Hpre as [_ Hpre]. by exists pre, c, post.
    + split; [discriminate |].
      intros (pre & c & post & Heq & Hpre & Hport & Hst).
      destruct pre as [| [k c'] pre]; simplify_eq/=.
      * apply conn_listens_raises in Hc0. congruence.
      * apply Forall_cons in Hpre as [Hpc _]. unfold passed in Hpc. simpl in Hpc.
        congruence.
Qed.

(** [get_process_by_port] answers [None] in exactly two cases: the test
    ran on every connection of the scan and was false each time; or the
    first connection on which it was not false has an empty local
    address, so that [conn.laddr.port] raised and the scan was given up,
    whatever listens further on. *)
Theorem first_listener_none port ps :
  first_listener port ps = None <->
  Forall (passed port) (connections_of ps)
  \/ exists pre m c post,
       connections_of ps = pre ++ (m, c) :: post
       /\ Forall (passed port) pre
       /\ laddr_port c = None.
Proof.
  induction ps as [| p ps Hp IH | m c0 conns ps IH] using scan_ind.
  - split; [| done]. intros _. left. constructor.
  - by rewrite (first_listener_no_conn _ _ _ Hp), (connections_of_no_conn _ _ Hp).
  - rewrite first_listener_cons_conn, connections_of_cons_conn.
    destruct (conn_listens port c0) as [[|] |] eqn:Hc0.
    + split; [discriminate |]. intros [Hall | (pre & k & c & post & Heq & Hpre & Hc)].
      * apply Forall_cons in Hall as [Hpc _]. unfold passed in Hpc. simpl in Hpc. congruence.
      * destruct pre as [| [k' c'] pre]; simplify_eq/=.
        -- apply (proj2 (conn_listens_raises port _)) in Hc. congruence.
        -- apply Forall_cons in Hpre as [Hpc _]. unfold passed in Hpc. simpl in Hpc.
           congruence.
    + rewrite IH. split.
      * intros [Hall | (pre & k & c & post & -> & Hpre & Hc)].
        -- left. by constructor.
        -- right. exists ((m, c0) :: pre), k, c, post. split; [done |].
           split; [by constructor | done].
      * intros [Hall | (pre & k & c & post & Heq & Hpre & Hc)].
        -- left. by apply Forall_cons in Hall as [_ Hall].
        -- destruct pre as [| [k' c'] pre]; simplify_eq/=.
           ++ apply (proj2 (conn_listens_raises port _)) in Hc. congruence.
           ++ right. apply Forall_cons in Hpre as [_ Hpre]. by exists pre, k, c, post.
    + split; [| done]. intros _. right.
      exists [], m, c0, (connections_of (mkProc m (Some conns) :: ps)).
      split; [done |]. split; [constructor |]. by apply conn_listens_raises in Hc0.
Qed.

End Inspector.

(** A connection with an empty local address in the first process hides
    the listener in the second. *)
Example empty_laddr_hides_listener :
  first_listener 8000%Z
    [mkProc 17%Z (Some [mkConnNoAddr "NONE"]);
     mkProc 4242%Z (Some [mkConn 8000%Z "LISTEN"])] = None
  /\ first_listener 8000%Z
       [mkProc 17%Z (Some [mkConn 22%Z "LISTEN"; mkConn 8000%Z "ESTABLISHED"]);
        mkProc 4242%Z (Some [mkConn 8000%Z "LISTEN"])] = Some 4242%Z.
Proof. split; reflexivity. Qed.

(** ** The health prober and one round of reconciliation *)

Section Observation.
Context {W : Type} `{World W}.

Implicit Types s : Sys W.

(** [check_service_health] never raises and never writes the registry.
    For a name other than nllb and ollama it answers False without any
    request; for nllb and ollama it sends exactly one GET, to the health
    URL of that service, and answers True exactly when the status code is
    200: any other code and any exception give False. *)
Theorem check_service_health_spec service s :
  exists b s',
    run (check_service_health service) s = (inr b, s')
    /\ registry s' = registry s
    /\ (known service = false -> b = false /\ s' = s)
    /\ (known service = true ->
          exists url o,
            health_url service = Some url
            /\ url = "http://localhost:" +:+ (if decide (service = "nllb") then "8000" else "8001")
                     +:+ "/health"
            /\ trace s' = trace s ++ [EvHttp url o]
            /\ (b = true <-> o = HttpResponse 200)).
Proof.
  rewrite run_check_service_health. unfold known, health_url.
  destruct (decide (service = "nllb")) as [-> | Hn]; simpl.
  - destruct (requests_get _ (world s)) as [o w]. eexists _, _.
    split; [reflexivity |]. split; [done |]. split; [discriminate |].
    intros _. eexists _, o. repeat split; try done.
    + apply probe_ok_true.
    + by intros ->.
  - rewrite (bool_decide_eq_false_2 _ Hn). simpl.
    destruct (decide (service = "ollama")) as [-> | Ho]; simpl.
    + destruct (requests_get _ (world s)) as [o w]. eexists _, _.
      split; [reflexivity |]. split; [done |]. split; [discriminate |].
      intros _. eexists _, o. repeat split; try done.
      * apply probe_ok_true.
      * by intros ->.
    + rewrite (bool_decide_eq_false_2 _ Ho). exists false, s.
      repeat split; try done.
Qed.

(** One round of [update_service_status], answer by answer. *)
Lemma run_reconcile_exact service s e sc w1 :
  registry s !! service = Some e ->
  process_iter (world s) = (sc, w1) ->
  run (reconcile service) s =
  let p := first_listener (port_of service) (procs sc) in
  if pid_truthy p then
    match health_url service with
    | Some url =>
        let '(o, w2) := requests_get url w1 in
        (inr tt, mkSys (<[service := reconciled p (probe_ok o) e]> (registry s)) w2
                   ((trace s ++ [EvScan sc]) ++ [EvHttp url o]))
    | None =>
        (inr tt, mkSys (<[service := reconciled p false e]> (registry s)) w1
                   (trace s ++ [EvScan sc]))
    end
  else
    (inr tt, mkSys (<[service := reconciled p false e]> (registry s)) w1
               (trace s ++ [EvScan sc])).
Proof.
  intros He Hscan. unfold reconcile.
  rewrite run_bind, run_get_process_by_port, Hscan. cbv zeta beta iota.
  set (p := first_listener (port_of service) (procs sc)).
  rewrite run_bind. destruct (pid_truthy p).
  - rewrite run_check_service_health. cbn [world registry trace].
    destruct (health_url service) as [url |].
    + destruct (requests_get url w1) as [o w2].
      destruct (probe_ok o); by rewrite (run_assign_pair _ _ _ _ e).
    + by rewrite (run_assign_pair _ _ _ _ e).
  - cbn [run]. by rewrite (run_assign_pair _ _ _ _ e).
Qed.

(** When the scan shows no process listening on the port of the
    service, or only one whose pid is 0, reconciliation does not probe
    the health URL at all: the scan is its only effect, and the entry
    becomes stopped with no pid. *)
Theorem reconcile_without_listener service s e sc w1 :
  registry s !! service = Some e ->
  process_iter (world s) = (sc, w1) ->
  pid_truthy (first_listener (port_of service) (procs sc)) = false ->
  run (reconcile service) s
  = (inr tt, mkSys (<[service := mkEntry None stopped (start_time e)]> (registry s)) w1
               (trace s ++ [EvScan sc])).
Proof.
  intros He Hscan Hp. rewrite (run_reconcile_exact _ _ _ _ _ He Hscan).
  cbv zeta. by rewrite Hp.
Qed.

(** An entry that reconciliation leaves running was observed in that
    very round: the scan showed its pid, which is not 0, as the first
    listener on the port of the service, and the health URL of the
    service then answered 200. *)
Theorem reconcile_running_observed service s s' e' :
  run (reconcile service) s = (inr tt, s') ->
  registry s' !! service = Some e' ->
  status e' = running ->
  exists sc url n,
    trace s' = trace s ++ [EvScan sc; EvHttp url (HttpResponse 200)]
    /\ health_url service = Some url
    /\ first_listener (port_of service) (procs sc) = Some n
    /\ n <> 0%Z
    /\ pid e' = Some n.
Proof.
  intros Hrun He' Hst.
  destruct (registry s !! service) as [e |] eqn:He.
  2: { destruct (run_reconcile_missing service s He) as (s1 & Hrun1 & _). congruence. }
  destruct (process_iter (world s)) as [sc w1] eqn:Hscan.
  rewrite (run_reconcile_exact _ _ _ _ _ He Hscan) in Hrun. cbv zeta in Hrun.
  set (p := first_listener (port_of service) (procs sc)) in *.
  assert (Hstopped : forall w t,
             (@inr Exn unit tt, mkSys (<[service := reconciled p false e]> (registry s)) w t)
             = (inr tt, s') -> False).
  { intros w t [= <-]. simpl in He'. rewrite lookup_insert_eq in He'.
    injection He' as <-. discriminate Hst. }
  destruct (pid_truthy p) eqn:Hp; [| exfalso; eapply Hstopped, Hrun].
  destruct (health_url service) as [url |]; [| exfalso; eapply Hstopped, Hrun].
  destruct (requests_get url w1) as [o w2].
  destruct (probe_ok o) eqn:Ho; [| exfalso; eapply Hstopped, Hrun].
  apply probe_ok_true in Ho as ->. injection Hrun as <-.
  simpl in He'. rewrite lookup_insert_eq in He'. injection He' as <-.
  destruct p as [n |] eqn:Hpn; [| discriminate Hp].
  exists sc, url, n. split; [by rewrite <- app_assoc |].
  repeat split; try done.
  simpl in Hp. intros ->. discriminate Hp.
Qed.

End Observation.

Lemma reconcile_without_listener_witness :
  run (reconcile "nllb")
    (fresh (mkOracle [mkScan [mkProc 0%Z (Some [mkConn 8000%Z "LISTEN"])] false]
              [HttpResponse 200] []))
  = (inr tt,
     mkSys (<["nllb" := mkEntry None stopped None]> service_processes)
       (mkOracle [] [HttpResponse 200] [])
       [EvScan (mkScan [mkProc 0%Z (Some [mkConn 8000%Z "LISTEN"])] false)]).
Proof.
  apply (reconcile_without_listener "nllb"
           (fresh (mkOracle [mkScan [mkProc 0%Z (Some [mkConn 8000%Z "LISTEN"])] false]
                     [HttpResponse 200] []))
           (mkEntry None stopped None)); reflexivity.
Defined.

Lemma reconcile_running_observed_witness :
  exists sc url n,
    trace (run (reconcile "nllb") (fresh nllb_up)).2
    = [] ++ [EvScan sc; EvHttp url (HttpResponse 200)]
    /\ health_url "nllb" = Some url
    /\ first_listener (port_of "nllb") (procs sc) = Some n
    /\ n <> 0%Z
    /\ pid (mkEntry (Some 4242%Z) running None) = Some n.
Proof.
  eapply (reconcile_running_observed "nllb" (fresh nllb_up)); reflexivity.
Defined.

(** ** What reconciliation keeps and what it overwrites *)

Section Cache.
Context {W : Type} `{World W}.

Implicit Types s : Sys W.

Lemma observed_reconciled p ok e1 e2 :
  observed (reconciled p ok e1) = observed (reconciled p ok e2).
Proof. by destruct ok. Qed.

Lemma reconcile_same_world service s1 s2 e1 e2 :
  world s1 = world s2 ->
  registry s1 !! service = Some e1 ->
  registry s2 !! service = Some e2 ->
  exists p ok w t,
    run (reconcile service) s1
    = (inr tt, mkSys (<[service := reconciled p ok e1]> (registry s1)) w (trace s1 ++ t))
    /\ run (reconcile service) s2
       = (inr tt, mkSys (<[service := reconciled p ok e2]> (registry s2)) w (trace s2 ++ t)).
Proof.
  intros Hw He1 He2.
  destruct (process_iter (world s1)) as [sc w1] eqn:Hscan1.
  assert (Hscan2 : process_iter (world s2) = (sc, w1)) by (by rewrite <- Hw).
  rewrite (run_reconcile_exact _ _ _ _ _ He1 Hscan1),
    (run_reconcile_exact _ _ _ _ _ He2 Hscan2). cbv zeta.
  set (p := first_listener (port_of service) (procs sc)).
  destruct (pid_truthy p); [| by exists p, false, w1, [EvScan sc]].
  destruct (health_url service) as [url |]; [| by exists p, false, w1, [EvScan sc]].
  destruct (requests_get url w1) as [o w2].
  exists p, (probe_ok o), w2, [EvScan sc; EvHttp url o].
  by rewrite <- !app_assoc.
Qed.

(** [update_service_status] rebuilds the pid and the status of both
    services from what it observes: started in the same outside world
    from two registries that hold both names, it leaves the same pid and
    the same status for nllb and for ollama, whatever was stored
    before. *)
Theorem update_service_status_ignores_cache s1 s2 :
  world s1 = world s2 ->
  reg_wf (registry s1) ->
  reg_wf (registry s2) ->
  exists s1' s2',
    run update_service_status s1 = (inr tt, s1')
    /\ run update_service_status s2 = (inr tt, s2')
    /\ world s1' = world s2'
    /\ forall service, known service = true ->
         observed <$> registry s1' !! service = observed <$> registry s2' !! service.
Proof.
  intros Hw [[n1 Hn1] [o1 Ho1]] [[n2 Hn2] [o2 Ho2]].
  destruct (reconcile_same_world "nllb" s1 s2 n1 n2 Hw Hn1 Hn2)
    as (p & ok & w & t & Hr1 & Hr2).
  set (a1 := mkSys (<["nllb" := reconciled p ok n1]> (registry s1)) w (trace s1 ++ t)) in Hr1.
  set (a2 := mkSys (<["nllb" := reconciled p ok n2]> (registry s2)) w (trace s2 ++ t)) in Hr2.
  assert (Ho1' : registry a1 !! "ollama" = Some o1)
    by (subst a1; simpl; by rewrite lookup_insert_ne).
  assert (Ho2' : registry a2 !! "ollama" = Some o2)
    by (subst a2; simpl; by rewrite lookup_insert_ne).
  destruct (reconcile_same_world "ollama" a1 a2 o1 o2 eq_refl Ho1' Ho2')
    as (p' & ok' & w' & t' & Hr1' & Hr2').
  eexists _, _. split; [| split; [| split]].
  - unfold update_service_status. cbn [for_each].
    rewrite run_bind, Hr1. cbv beta iota. rewrite run_bind, Hr1'. reflexivity.
  - unfold update_service_status. cbn [for_each].
    rewrite run_bind, Hr2. cbv beta iota. rewrite run_bind, Hr2'. reflexivity.
  - reflexivity.
  - intros service [-> | ->]%known_spec; simpl.
    + rewrite !(lookup_insert_ne _ "ollama" "nllb") by done.
      rewrite !lookup_insert_eq. simpl.
      by rewrite (observed_reconciled _ _ n1 n2).
    + rewrite !lookup_insert_eq. simpl.
      by rewrite (observed_reconciled _ _ o1 o2).
Qed.

Lemma assign_start_time k (f : Entry -> Entry) s service :
  (forall e, start_time (f e) = start_time e) ->
  start_time <$> registry (assign k f s).2 !! service = start_time <$> registry s !! service.
Proof.
  intros Hf. unfold assign. destruct (registry s !! k) as [e |] eqn:Hk; [| done].
  simpl. destruct (decide (k = service)) as [<- | Hne].
  - by rewrite lookup_insert_eq, Hk; simpl; rewrite Hf.
  - by rewrite lookup_insert_ne.
Qed.

Lemma react_start_time {X : Type} (e : Eff X) s service :
  start_time <$> registry (react e s).2 !! service = start_time <$> registry s !! service.
Proof.
  destruct e as [| url | path | secs | k | k v | k v |]; simpl.
  - by destruct (process_iter (world s)).
  - by destruct (requests_get url (world s)).
  - by destruct (subprocess_run path (world s)).
  - done.
  - by destruct (registry s !! k).
  - by apply assign_start_time.
  - by apply assign_start_time.
  - done.
Qed.

(** No program, whatever the answers of the world, changes a
    [start_time]. *)
Lemma run_start_time {A : Type} (p : Prog A) s service :
  start_time <$> registry (run p s).2 !! service = start_time <$> registry s !! service.
Proof.
  revert s. induction p as [a | e | X e k IH]; intros s; simpl; try done.
  pose proof (react_start_time e s service) as Hst.
  destruct (react e s) as [[ex | x] s1]; simpl in Hst; [done |].
  by rewrite IH.
Qed.

(** After the initial reconciliation and any sequence of requests, in
    every outside world, the registry holds exactly the names nllb and
    ollama, and every [start_time] is still [None]: no code path ever
    sets it. *)
Theorem registry_names_and_start_time_fixed (rqs : list Request) (w : W) :
  dom (registry (serve rqs (boot w))) = {["nllb"; "ollama"]}
  /\ forall service e,
       registry (serve rqs (boot w)) !! service = Some e -> start_time e = None.
Proof.
  assert (Hserve : forall s,
             dom (registry (serve rqs s)) = dom (registry s)
             /\ forall service,
                  start_time <$> registry (serve rqs s) !! service
                  = start_time <$> registry s !! service).
  { induction rqs as [| rq rqs IH]; intros s; [done |].
    cbn [serve fold_left]. destruct (IH (run (dispatch rq) s).2) as [Hd Hs].
    unfold serve in Hd, Hs. split.
    - by rewrite Hd, run_dom.
    - intros service. by rewrite Hs, run_start_time. }
  destruct (Hserve (boot w)) as [Hd Hs]. unfold boot in *. split.
  - rewrite Hd, run_dom. simpl. unfold service_processes.
    rewrite !dom_insert_L, dom_empty_L. set_solver.
  - intros service e He. specialize (Hs service).
    rewrite He, run_start_time in Hs. simpl in Hs.
    unfold service_processes in Hs.
    destruct (decide (service = "nllb")) as [-> |];
      [rewrite lookup_insert_eq in Hs; by injection Hs |].
    rewrite lookup_insert_ne in Hs by done.
    destruct (decide (service = "ollama")) as [-> |];
      [rewrite lookup_insert_eq in Hs; by injection Hs |].
    rewrite lookup_insert_ne, lookup_empty in Hs by done. discriminate.
Qed.

End Cache.

Lemma update_service_status_ignores_cache_witness :
  exists s1' s2',
    run update_service_status (fresh nllb_up) = (inr tt, s1')
    /\ run update_service_status
         (mkSys (<["nllb" := mkEntry (Some 1%Z) running None]> service_processes) nllb_up [])
       = (inr tt, s2')
    /\ world s1' = world s2'
    /\ forall service, known service = true ->
         observed <$> registry s1' !! service = observed <$> registry s2' !! service.
Proof.
  apply (update_service_status_ignores_cache (fresh nllb_up)
           (mkSys (<["nllb" := mkEntry (Some 1%Z) running None]> service_processes) nllb_up [])).
  - reflexivity.
  - split; eexists; reflexivity.
  - split; eexists; reflexivity.
Defined.

(** ** The answers of the lifecycle endpoints *)

Section Answers.
Context {W : Type} `{World W}.

Implicit Types s : Sys W.

Lemma wait_until_ready_cases n service out s r s' :
  run (wait_until_ready n service out) s = (inr r, s') ->
  r = started service out
  \/ (r = start_timed_out service out /\ registry s' = registry s).
Proof.
  revert s. induction n as [| n IH]; intros s Hrun.
  { simpl in Hrun. injection Hrun as <- <-. by right. }
  cbn [wait_until_ready] in Hrun.
  rewrite run_bind, run_perform in Hrun. cbn [react] in Hrun.
  rewrite run_bind in Hrun.
  match type of Hrun with context [run (check_service_health service) ?s0] =>
    destruct (check_service_health_total service s0) as (b & sb & Hc & Hreg) end.
  rewrite Hc in Hrun. destruct b.
  - rewrite run_bind in Hrun.
    destruct (run update_service_status sb) as [[ex | []] sc]; [discriminate |].
    injection Hrun as <- <-. by left.
  - destruct (IH sb Hrun) as [-> | [-> Hreg']]; [by left | right].
    split; [done |]. by rewrite Hreg', Hreg.
Qed.

(** Every answer Start can return, with what became of the registry. *)
Lemma start_service_cases service s r s' :
  run (start_service service) s = (inr r, s') ->
  (known service = false /\ r = invalid_service /\ s' = s)
  \/ (r = already_running service /\ registry s' = registry s)
  \/ (exists out err, r = start_failed service out err /\ registry s' = registry s)
  \/ (exists out, r = start_timed_out service out /\ registry s' = registry s)
  \/ (exists out, r = started service out).
Proof.
  intros Hrun. unfold start_service in Hrun.
  destruct (known service); cbn [negb] in Hrun;
    [| injection Hrun as <- <-; by left].
  rewrite run_bind in Hrun.
  destruct (check_service_health_total service s) as (up & sa & Hc & Hra).
  rewrite Hc in Hrun. destruct up.
  { injection Hrun as <- <-. right; left. by split. }
  rewrite run_bind, run_run_script in Hrun.
  destruct (subprocess_run (start_script service) (world sa)) as [o w].
  destruct (script_result o) as [[out err] rc].
  destruct (bool_decide (rc = 0%Z)); cbn [negb] in Hrun.
  - destruct (wait_until_ready_cases _ _ _ _ _ _ Hrun) as [-> | [-> Hreg]].
    + do 4 right. by exists out.
    + do 3 right; left. exists out. split; [done |]. by rewrite Hreg.
  - injection Hrun as <- <-. do 2 right; left. by exists out, err.
Qed.

(** Every answer Stop can return. *)
Lemma stop_service_cases service s r s' :
  run (stop_service service) s = (inr r, s') ->
  (known service = false /\ r = invalid_service /\ s' = s)
  \/ (exists out err, r = stop_failed service out err /\ registry s' = registry s)
  \/ (exists st out, r = stop_done service st out).
Proof.
  intros Hrun. unfold stop_service in Hrun.
  destruct (known service); cbn [negb] in Hrun;
    [| injection Hrun as <- <-; by left].
  rewrite run_bind, run_run_script in Hrun.
  destruct (subprocess_run (stop_script service) (world s)) as [o w].
  destruct (script_result o) as [[out err] rc].
  destruct (bool_decide (rc = 0%Z)); cbn [negb] in Hrun.
  - rewrite run_bind, run_perform in Hrun. cbn [react] in Hrun.
    rewrite run_bind in Hrun.
    match type of Hrun with context [run update_service_status ?s0] =>
      destruct (run update_service_status s0) as [[ex | []] s3] end; [discriminate |].
    rewrite run_bind, run_perform in Hrun. cbn [react] in Hrun.
    destruct (registry s3 !! service) as [e |]; [| discriminate].
    injection Hrun as <- <-. do 2 right. by eexists _, _.
  - injection Hrun as <- <-. right; left. by exists out, err.
Qed.

(** A start script that does not exit with 0, because it failed, ran
    into the timeout or could not be launched, makes Start answer 500
    with the script's stderr in the error text and its stdout beside it.
    Start stops there: no poll, no sleep, no reconciliation, and the
    registry is the one before the call. *)
Theorem start_service_script_failure service s sa o w out err rc :
  known service = true ->
  run (check_service_health service) s = (inr false, sa) ->
  subprocess_run (start_script service) (world sa) = (o, w) ->
  script_result o = (out, err, rc) ->
  rc <> 0%Z ->
  run (start_service service) s
  = (inr (start_failed service out err),
     mkSys (registry s) w (trace sa ++ [EvScript (start_script service) o]))
  /\ http_status (inr (start_failed service out err)) = 500%Z
  /\ dict_get "error" JNull (body_of (start_failed service out err))
     = JStr ("Failed to start " +:+ service +:+ ": " +:+ err)
  /\ dict_get "stdout" JNull (body_of (start_failed service out err)) = JStr out.
Proof.
  intros Hk Hc Hsub Hres Hrc.
  destruct (check_service_health_total service s) as (b & sa' & Hc' & Hra).
  rewrite Hc in Hc'. injection Hc' as _ <-.
  split; [| by repeat split].
  unfold start_service. rewrite Hk. cbn [negb].
  rewrite run_bind, Hc. cbv beta iota.
  rewrite run_bind, run_run_script, Hsub, Hres. cbv beta iota.
  rewrite bool_decide_eq_false_2 by done. cbn [negb run]. by rewrite Hra.
Qed.

(** Start writes the registry only when one of its polls succeeded:
    with any other answer (400, already running, script failure, polling
    timeout) the registry is the one before the call. *)
Theorem start_service_writes_only_when_started service s r s' :
  run (start_service service) s = (inr r, s') ->
  (forall out, r <> started service out) ->
  registry s' = registry s.
Proof.
  intros Hrun Hne.
  destruct (start_service_cases _ _ _ _ Hrun)
    as [(_ & _ & ->) | [[_ Hr] | [(out & err & _ & Hr) | [(out & _ & Hr) | [out ->]]]]];
    try done.
  by destruct (Hne out).
Qed.

(** Every way Restart can end, against Stop on the same state. *)
Lemma restart_service_cases service s :
  (run (restart_service service) s = (inr invalid_service, s)
   /\ run (stop_service service) s = (inr invalid_service, s))
  \/ (exists ex, run (restart_service service) s = (inl ex, (run (stop_service service) s).2))
  \/ (exists out err,
        run (restart_service service) s
        = (inr (stop_failed service out err), (run (stop_service service) s).2)
        /\ (run (stop_service service) s).1 = inr (stop_failed service out err)).
Proof.
  unfold restart_service. destruct (known service) eqn:Hk; cbn [negb].
  2: { left. unfold stop_service. by rewrite Hk. }
  right. rewrite run_bind.
  destruct (run (stop_service service) s) as [[ex | v] s1] eqn:Hstop.
  { left. by exists ex. }
  destruct (stop_service_cases _ _ _ _ Hstop)
    as [(Hk' & _) | [(out & err & -> & _) | (st & out & ->)]].
  - congruence.
  - right. by exists out, err.
  - left. by eexists.
Qed.

(** Restart performs exactly the effects of Stop and nothing more: the
    registry, the outside world and the trace after Restart are those
    after Stop alone.  It never answers 200 and never reaches the start
    script; when it returns a response, that response is the one Stop
    returned and its success field is not true. *)
Theorem restart_service_is_stop service s :
  (run (restart_service service) s).2 = (run (stop_service service) s).2
  /\ http_status (run (restart_service service) s).1 <> 200%Z
  /\ forall r, (run (restart_service service) s).1 = inr r ->
       (run (stop_service service) s).1 = inr r /\ succeeded r = false.
Proof.
  destruct (restart_service_cases service s)
    as [[Hr Hs] | [[ex Hr] | (out & err & Hr & Hs)]]; rewrite Hr; cbn [fst snd].
  - rewrite Hs. split; [done |]. split; [done |]. by intros r [= <-].
  - split; [done |]. split; [done |]. discriminate.
  - rewrite Hs. split; [done |]. split; [done |]. by intros r [= <-].
Qed.

(** For the three lifecycle endpoints the status code and the body
    agree: a response carries success true exactly when it is sent with
    status 200. *)
Theorem lifecycle_status_matches_success rq service s r s' :
  rq ∈ [POST_start service; POST_stop service; POST_restart service] ->
  run (dispatch rq) s = (inr r, s') ->
  succeeded r = true <-> http_status (inr r) = 200%Z.
Proof.
  intros Hin Hrun. set_unfold in Hin.
  destruct Hin as [-> | [-> | [-> | []]]]; cbn [dispatch] in Hrun.
  - destruct (start_service_cases _ _ _ _ Hrun)
      as [(_ & -> & _) | [[-> _] | [(out & err & -> & _) | [(out & -> & _) | [out ->]]]]];
      by cbn.
  - destruct (stop_service_cases _ _ _ _ Hrun)
      as [(_ & -> & _) | [(out & err & -> & _) | (st & out & ->)]]; by cbn.
  - destruct (restart_service_cases service s)
      as [[Hr _] | [[ex Hr] | (out & err & Hr & _)]];
      rewrite Hr in Hrun; [| discriminate |]; injection Hrun as <- _; by cbn.
Qed.

End Answers.

(** Ollama is down and its start script exits with 1. *)
Lemma start_service_script_failure_witness :
  run (start_service "ollama")
    (fresh (mkOracle [] [HttpRaised] [Completed "" "model not found" 1%Z]))
  = (inr (start_failed "ollama" "" "model not found"),
     mkSys service_processes (mkOracle [] [] [])
       ([EvHttp "http://localhost:8001/health" HttpRaised]
        ++ [EvScript (start_script "ollama") (Completed "" "model not found" 1%Z)])).
Proof.
  refine (proj1 (start_service_script_failure "ollama"
                   (fresh (mkOracle [] [HttpRaised] [Completed "" "model not found" 1%Z]))
                   (mkSys service_processes
                      (mkOracle [] [] [Completed "" "model not found" 1%Z])
                      [EvHttp "http://localhost:8001/health" HttpRaised])
                   (Completed "" "model not found" 1%Z) (mkOracle [] [] [])
                   "" "model not found" 1%Z _ _ _ _ _));
    try reflexivity.
  discriminate.
Defined.

Lemma start_service_writes_only_when_started_witness :
  registry (run (start_service "nllb") (fresh (mkOracle [] [] [Completed "" "" 0%Z]))).2
  = service_processes.
Proof.
  eapply (start_service_writes_only_when_started "nllb"
            (fresh (mkOracle [] [] [Completed "" "" 0%Z]))).
  - vm_compute. reflexivity.
  - intros out. discriminate.
Defined.

Lemma lifecycle_status_matches_success_witness :
  succeeded (stop_done "nllb" running "") = true
  <-> http_status (inr (stop_done "nllb" running "")) = 200%Z.
Proof.
  eapply (lifecycle_status_matches_success (POST_stop "nllb") "nllb" (fresh stop_ignored)).
  - set_solver.
  - vm_compute. reflexivity.
Defined.

(** ** What a request costs *)

Section Cost.
Context {W : Type} `{World W}.

Implicit Types s : Sys W.

Lemma used_app r t1 t2 : used r (t1 ++ t2) = used r t1 + used r t2.
Proof. induction t1 as [| ev t1 IH]; simpl; [done | rewrite IH; lia]. Qed.

Lemma react_used {X : Type} r (e : Eff X) s :
  used r (trace (react e s).2) = used r (trace s) + eff_cost r e.
Proof.
  destruct e as [| url | path | secs | k | k v | k v |]; simpl; unfold assign.
  - destruct (process_iter (world s)); simpl. rewrite used_app. destruct r; simpl; lia.
  - destruct (requests_get url (world s)); simpl. rewrite used_app. destruct r; simpl; lia.
  - destruct (subprocess_run path (world s)); simpl. rewrite used_app. destruct r; simpl; lia.
  - rewrite used_app. destruct r; simpl; lia.
  - destruct (registry s !! k); simpl; lia.
  - destruct (registry s !! k); simpl; lia.
  - destruct (registry s !! k); simpl; lia.
  - lia.
Qed.

(** A program that stays within [n] adds at most [n] to what the trace
    already shows. *)
Lemma run_within {A : Type} r n (p : Prog A) s :
  within r n p -> used r (trace (run p s).2) <= used r (trace s) + n.
Proof.
  revert n s. induction p as [a | e | X e k IH]; intros n s; simpl; try lia.
  intros [Hc Hk]. pose proof (react_used r e s) as Hre.
  destruct (react e s) as [[ex | x] s1]; simpl in *; [lia |].
  specialize (IH x _ s1 (Hk x)). lia.
Qed.

Lemma within_mono {A : Type} r n m (p : Prog A) : n <= m -> within r n p -> within r m p.
Proof.
  revert n m. induction p as [a | e | X e k IH]; intros n m Hle; simpl; try done.
  intros [Hc Hk]. split; [lia |]. intros x.
  apply (IH x (n - eff_cost r e)); [lia | apply Hk].
Qed.

Lemma within_bind {A B : Type} r (m : Prog A) (f : A -> Prog B) n1 n2 n :
  within r n1 m -> (forall a, within r n2 (f a)) -> n1 + n2 <= n ->
  within r n (bind m f).
Proof.
  revert n1 n. induction m as [a | e | X e k IH]; intros n1 n Hm Hf Hle; simpl; try done.
  - apply (within_mono r n2); [lia | apply Hf].
  - destruct Hm as [Hc Hk]. split; [lia |]. intros x.
    apply (IH x (n1 - eff_cost r e)); [apply Hk | apply Hf | lia].
Qed.

Lemma within_perform {X : Type} r (e : Eff X) : within r (eff_cost r e) (perform e).
Proof. simpl. split; [lia | done]. Qed.

Lemma within_check_service_health service r :
  within r (cap 0 1 0 0 r) (check_service_health service).
Proof.
  unfold check_service_health. destruct (health_url service); [| done].
  destruct r; simpl; (split; [lia | done]).
Qed.

Lemma within_get_process_by_port port r :
  within r (cap 1 0 0 0 r) (get_process_by_port port).
Proof. destruct r; simpl; (split; [lia | done]). Qed.

Lemma within_run_script path r : within r (cap 0 0 1 0 r) (run_script path).
Proof. destruct r; simpl; (split; [lia | done]). Qed.

Lemma within_sleep2 r : within r (cap 0 0 0 2 r) (perform (Sleep 2%Z)).
Proof. destruct r; simpl; (split; [lia | done]). Qed.

Lemma within_lookup service r : within r 0 (perform (Lookup service)).
Proof. simpl. split; [lia | done]. Qed.

Lemma within_reconcile service r : within r (cap 1 1 0 0 r) (reconcile service).
Proof.
  unfold reconcile.
  apply (within_bind r _ _ (cap 1 0 0 0 r) (cap 0 1 0 0 r));
    [apply within_get_process_by_port | intros p | destruct r; simpl; lia].
  apply (within_bind r _ _ (cap 0 1 0 0 r) 0);
    [| intros ok | lia].
  - destruct (pid_truthy p); [apply within_check_service_health | done].
  - destruct ok; simpl; (split; [lia |]); intros _; (split; [lia | done]).
Qed.

Lemma within_update_service_status r : within r (cap 2 2 0 0 r) update_service_status.
Proof.
  unfold update_service_status. cbn [for_each].
  apply (within_bind r _ _ (cap 1 1 0 0 r) (cap 1 1 0 0 r));
    [apply within_reconcile | intros _ | destruct r; simpl; lia].
  apply (within_bind r _ _ (cap 1 1 0 0 r) 0);
    [apply within_reconcile | done | lia].
Qed.

Lemma within_wait_until_ready n service out r :
  within r (cap 2 (n + 2) 0 (2 * n) r) (wait_until_ready n service out).
Proof.
  induction n as [| n IH]; cbn [wait_until_ready]; [done |].
  apply (within_bind r _ _ (cap 0 0 0 2 r) (cap 2 (n + 3) 0 (2 * n) r));
    [apply within_sleep2 | intros _ | destruct r; simpl; lia].
  apply (within_bind r _ _ (cap 0 1 0 0 r) (cap 2 (n + 2) 0 (2 * n) r));
    [apply within_check_service_health | intros ok | destruct r; simpl; lia].
  destruct ok; [| exact IH].
  apply (within_bind r _ _ (cap 2 2 0 0 r) 0);
    [apply within_update_service_status | done | destruct r; simpl; lia].
Qed.

Lemma within_start_service service r : within r (cap 2 18 1 30 r) (start_service service).
Proof.
  unfold start_service. destruct (negb (known service)); [done |].
  apply (within_bind r _ _ (cap 0 1 0 0 r) (cap 2 17 1 30 r));
    [apply within_check_service_health | intros up | destruct r; simpl; lia].
  destruct up; [done |].
  apply (within_bind r _ _ (cap 0 0 1 0 r) (cap 2 17 0 30 r));
    [apply within_run_script | intros [[out err] rc] | destruct r; simpl; lia].
  destruct (negb _); [done |]. apply (within_wait_until_ready 15).
Qed.

Lemma within_stop_service service r : within r (cap 2 2 1 2 r) (stop_service service).
Proof.
  unfold stop_service. destruct (negb (known service)); [done |].
  apply (within_bind r _ _ (cap 0 0 1 0 r) (cap 2 2 0 2 r));
    [apply within_run_script | intros [[out err] rc] | destruct r; simpl; lia].
  destruct (negb _); [done |].
  apply (within_bind r _ _ (cap 0 0 0 2 r) (cap 2 2 0 0 r));
    [apply within_sleep2 | intros _ | destruct r; simpl; lia].
  apply (within_bind r _ _ (cap 2 2 0 0 r) 0);
    [apply within_update_service_status | intros _ | lia].
  apply (within_bind r _ _ 0 0); [apply within_lookup | done | lia].
Qed.

Lemma within_get_services_status r : within r (cap 2 4 0 0 r) get_services_status.
Proof.
  unfold get_services_status.
  apply (within_bind r _ _ (cap 2 2 0 0 r) (cap 0 2 0 0 r));
    [apply within_update_service_status | intros _ | destruct r; simpl; lia].
  apply (within_bind r _ _ 0 (cap 0 2 0 0 r)); [apply within_lookup | intros n1 | lia].
  apply (within_bind r _ _ 0 (cap 0 2 0 0 r)); [apply within_lookup | intros n2 | lia].
  apply (within_bind r _ _ (cap 0 1 0 0 r) (cap 0 1 0 0 r));
    [apply within_check_service_health | intros nh | destruct r; simpl; lia].
  apply (within_bind r _ _ 0 (cap 0 1 0 0 r)); [apply within_lookup | intros o1 | lia].
  apply (within_bind r _ _ 0 (cap 0 1 0 0 r)); [apply within_lookup | intros o2 | lia].
  apply (within_bind r _ _ (cap 0 1 0 0 r) 0);
    [apply within_check_service_health | done | lia].
Qed.

(** In every outside world and for every name, one Start runs at most
    one script, sleeps at most 30 seconds in all (fifteen sleeps of two
    seconds), sends at most 18 health requests (the first probe, fifteen
    polls, two in the reconciliation) and scans the processes at most
    twice. *)
Theorem start_service_bounded service s :
  used Scripts (trace (run (start_service service) s).2) <= used Scripts (trace s) + 1
  /\ used SleepSeconds (trace (run (start_service service) s).2)
     <= used SleepSeconds (trace s) + 30
  /\ used Requests (trace (run (start_service service) s).2) <= used Requests (trace s) + 18
  /\ used Scans (trace (run (start_service service) s).2) <= used Scans (trace s) + 2.
Proof.
  repeat split.
  - apply (run_within Scripts 1), (within_start_service service Scripts).
  - apply (run_within SleepSeconds 30), (within_start_service service SleepSeconds).
  - apply (run_within Requests 18), (within_start_service service Requests).
  - apply (run_within Scans 2), (within_start_service service Scans).
Qed.

(** In every outside world and for every name, one Stop runs at most
    one script, sleeps at most two seconds, sends at most two health
    requests and scans the processes at most twice; Restart, which ends
    where Stop ends, stays within the same bounds. *)
Theorem stop_service_bounded service s :
  (used Scripts (trace (run (stop_service service) s).2) <= used Scripts (trace s) + 1
   /\ used SleepSeconds (trace (run (stop_service service) s).2)
      <= used SleepSeconds (trace s) + 2
   /\ used Requests (trace (run (stop_service service) s).2) <= used Requests (trace s) + 2
   /\ used Scans (trace (run (stop_service service) s).2) <= used Scans (trace s) + 2)
  /\ (used Scripts (trace (run (restart_service service) s).2) <= used Scripts (trace s) + 1
      /\ used SleepSeconds (trace (run (restart_service service) s).2)
         <= used SleepSeconds (trace s) + 2
      /\ used Requests (trace (run (restart_service service) s).2)
         <= used Requests (trace s) + 2
      /\ used Scans (trace (run (restart_service service) s).2) <= used Scans (trace s) + 2).
Proof.
  assert (Hstop : forall r n, n = cap 2 2 1 2 r ->
             used r (trace (run (stop_service service) s).2) <= used r (trace s) + n).
  { intros r n ->. apply run_within, within_stop_service. }
  assert (Hsame : (run (restart_service service) s).2 = (run (stop_service service) s).2).
  { destruct (restart_service_cases service s)
      as [[Hr Hs] | [[ex Hr] | (out & err & Hr & _)]]; rewrite Hr; [by rewrite Hs | done..]. }
  rewrite Hsame. split; repeat split; by apply Hstop.
Qed.

(** A status query never runs a script and never sleeps; it scans the
    processes at most twice and sends at most four health requests.  The
    health endpoint touches nothing outside the process and leaves the
    whole state as it is. *)
Theorem queries_bounded s :
  used Scripts (trace (run get_services_status s).2) = used Scripts (trace s)
  /\ used SleepSeconds (trace (run get_services_status s).2) = used SleepSeconds (trace s)
  /\ used Requests (trace (run get_services_status s).2) <= used Requests (trace s) + 4
  /\ used Scans (trace (run get_services_status s).2) <= used Scans (trace s) + 2
  /\ (run health s).2 = s.
Proof.
  assert (Hup : forall r, used r (trace s) <= used r (trace (run get_services_status s).2)).
  { intros r. destruct (run_trace get_services_status s) as [t ->].
    rewrite used_app. lia. }
  pose proof (run_within Scripts 0 _ s (within_get_services_status Scripts)).
  pose proof (run_within SleepSeconds 0 _ s (within_get_services_status SleepSeconds)).
  pose proof (Hup Scripts). pose proof (Hup SleepSeconds).
  split; [lia |]. split; [lia |].
  split; [apply (run_within Requests 4), (within_get_services_status Requests) |].
  split; [apply (run_within Scans 2), (within_get_services_status Scans) |].
  reflexivity.
Qed.

End Cost.

(** The bounds of Start are reached: both services listening, the
    start script exiting with 0 and the health check of nllb answering
    only on the fifteenth poll. *)
Example start_service_bounds_reached :
  let late := mkOracle
                (repeat (mkScan [mkProc 4242%Z (Some [mkConn 8000%Z "LISTEN"]);
                                 mkProc 4343%Z (Some [mkConn 8001%Z "LISTEN"])] false) 2)
                (repeat HttpRaised 15 ++ repeat (HttpResponse 200) 3)
                [Completed "" "" 0%Z] in
  (run (start_service "nllb") (fresh late)).1 = inr (started "nllb" "")
  /\ used Scripts (trace (run (start_service "nllb") (fresh late)).2) = 1
  /\ used SleepSeconds (trace (run (start_service "nllb") (fresh late)).2) = 30
  /\ used Requests (trace (run (start_service "nllb") (fresh late)).2) = 18
  /\ used Scans (trace (run (start_service "nllb") (fresh late)).2) = 2.
Proof. repeat split; vm_compute; reflexivity. Qed.
